(** * BuildANeuralNet API: authentication and security monitoring

    A shallow embedding of [apps/api/auth.py], [apps/api/monitoring.py] and
    the token endpoints of [apps/api/main.py], with the properties the
    specification states about them.

    Conventions of the embedding.
    - A Python [str] is a Rocq [string]; its characters are the code points
      0..255 (Latin-1).  Every literal and every regular expression of the
      sources is ASCII, and on this range [str.lower], [\d] and [\s] are
      given in full below.
    - [datetime.utcnow()] is a reading of the clock; every call of a modelled
      function receives its reading as the argument [now], an integer number
      of microseconds ([datetime]'s resolution).  A [timedelta] is a number of
      microseconds.
    - A [dict] is a [gmap], a [set] a [gset], a [list] or [deque] a [list].
    - A function that may [raise] returns an [outcome]; objects that Python
      mutates in place (the tracker singleton, the detector, the logger's
      output) are threaded through as explicit state. *)

From Stdlib Require Import ZArith List String Ascii Bool Lia.
From stdpp Require Import base option list gmap strings pretty.
Import ListNotations.

Local Open Scope string_scope.
Local Open Scope list_scope.
Local Open Scope Z_scope.

(** ** Python substrate: exceptions, time, strings *)

Module Py.

(** The exceptions the modelled code raises or catches.  All of them are
    subclasses of [Exception], so an [except Exception] clause catches each
    of them. *)
Inductive exn : Type :=
| HTTPException (status_code : Z) (detail : string)
| JWTError (msg : string)
| ValueError (msg : string)
| OtherError (msg : string).

Inductive outcome (A : Type) : Type :=
| Returned (a : A)
| Raised (e : exn).
Arguments Returned {A} a.
Arguments Raised {A} e.


(** [str(e)] of an exception. *)
Definition str_of_exn (e : exn) : string :=
  match e with
  | HTTPException _ d => d
  | JWTError m | ValueError m | OtherError m => m
  end.

(** [timedelta(minutes=m)], [timedelta(days=d)] in microseconds. *)
Definition timedelta_minutes (m : Z) : Z := m * 60 * 1000000.
Definition timedelta_days (d : Z) : Z := d * 24 * 60 * 60 * 1000000.

(** Characters as code points. *)
Definition ord (c : ascii) : Z := Z.of_N (N_of_ascii c).
Definition chr (z : Z) : ascii := ascii_of_N (Z.to_N z).

Definition between (lo hi : Z) (c : ascii) : bool :=
  (lo <=? ord c) && (ord c <=? hi).

Definition is_upper_ascii : ascii -> bool := between 65 90.
Definition is_lower_ascii : ascii -> bool := between 97 122.
Definition is_digit : ascii -> bool := between 48 57.

(** [str.lower] on one code point of Latin-1: [A-Z] and the accented
    capitals U+00C0..U+00DE (without the multiplication sign U+00D7) move
    up by 32. *)
Definition lower_char (c : ascii) : ascii :=
  if is_upper_ascii c || (between 192 222 c && negb (ord c =? 215))
  then chr (ord c + 32) else c.

Fixpoint lower (s : string) : string :=
  match s with
  | EmptyString => EmptyString
  | String c r => String (lower_char c) (lower r)
  end.

(** [str.isspace] on one code point of Latin-1; this is also the class
    [\s] of [re] on a [str] pattern. *)
Definition is_space (c : ascii) : bool :=
  between 9 13 c || between 28 32 c || (ord c =? 133) || (ord c =? 160).

Fixpoint lstrip (s : string) : string :=
  match s with
  | String c r => if is_space c then lstrip r else s
  | EmptyString => EmptyString
  end.

Fixpoint rstrip (s : string) : string :=
  match s with
  | EmptyString => EmptyString
  | String c r =>
      match rstrip r with
      | EmptyString => if is_space c then EmptyString else String c EmptyString
      | r' => String c r'
      end
  end.

(** [s.strip()] *)
Definition strip (s : string) : string := rstrip (lstrip s).

(** [s.split(sep)[0]] for a one-character separator: the text before the
    first occurrence of [sep], or all of [s]. *)
Fixpoint split_head (sep : ascii) (s : string) : string :=
  match s with
  | EmptyString => EmptyString
  | String c r => if Ascii.eqb c sep then EmptyString else String c (split_head sep r)
  end.

(** [s.startswith(w)] and [w in s]. *)
Fixpoint startswith (s w : string) : bool :=
  match w, s with
  | EmptyString, _ => true
  | String a w', String b s' => Ascii.eqb a b && startswith s' w'
  | String _ _, EmptyString => false
  end.

Fixpoint contains (s w : string) : bool :=
  startswith s w ||
  match s with
  | EmptyString => false
  | String _ s' => contains s' w
  end.

(** [if c: l.append(x)] *)
Definition append_if {A} (c : bool) (x : A) (l : list A) : list A :=
  if c then l ++ [x] else l.

(** Truthiness of a [str], and of a value that is a [str] or [None];
    membership in a list of [str]. *)
Definition truthy (s : string) : bool := negb (String.eqb s "").
Definition some_truthy (o : option string) : bool :=
  match o with Some s => truthy s | None => false end.
Definition str_in (s : string) (l : list string) : bool :=
  existsb (String.eqb s) l.

(** *** Regular expressions ([re])

    The patterns of the sources use literals, character classes,
    alternation, concatenation and repetition; these are matched with
    Brzozowski derivatives.  (The one back-reference, in the password
    validator, is written out as a function there.) *)
Inductive regex : Type :=
| Void
| Eps
| Class (p : ascii -> bool)
| Cat (r1 r2 : regex)
| Alt (r1 r2 : regex)
| Star (r : regex).

Fixpoint nullable (r : regex) : bool :=
  match r with
  | Void => false
  | Eps => true
  | Class _ => false
  | Cat r1 r2 => nullable r1 && nullable r2
  | Alt r1 r2 => nullable r1 || nullable r2
  | Star _ => true
  end.

Fixpoint deriv (c : ascii) (r : regex) : regex :=
  match r with
  | Void | Eps => Void
  | Class p => if p c then Eps else Void
  | Cat r1 r2 =>
      if nullable r1 then Alt (Cat (deriv c r1) r2) (deriv c r2)
      else Cat (deriv c r1) r2
  | Alt r1 r2 => Alt (deriv c r1) (deriv c r2)
  | Star r1 => Cat (deriv c r1) (Star r1)
  end.

(** [re.match(r, s) is not None]: some prefix of [s] matches [r]. *)
Fixpoint re_match (r : regex) (s : string) : bool :=
  nullable r ||
  match s with
  | EmptyString => false
  | String c s' => re_match (deriv c r) s'
  end.

(** [re.search(r, s) is not None]: [r] matches at some position of [s]. *)
Fixpoint re_search (r : regex) (s : string) : bool :=
  re_match r s ||
  match s with
  | EmptyString => false
  | String _ s' => re_search r s'
  end.

(** Pattern syntax. [dot] is [.] without [re.DOTALL]: any character but
    the line feed. *)
Definition char (c : ascii) : regex := Class (Ascii.eqb c).
Definition char_i (c : ascii) : regex :=
  Class (fun x => Ascii.eqb (lower_char x) (lower_char c)).
Definition dot : regex := Class (fun x => negb (ord x =? 10)).

Fixpoint lit (s : string) : regex :=
  match s with
  | EmptyString => Eps
  | String c r => Cat (char c) (lit r)
  end.

(** A literal under [re.IGNORECASE]. *)
Fixpoint lit_i (s : string) : regex :=
  match s with
  | EmptyString => Eps
  | String c r => Cat (char_i c) (lit_i r)
  end.

(** [r{2,}] *)
Definition two_or_more (r : regex) : regex := Cat r (Cat r (Star r)).

(** [(a|b|...)] *)
Definition alternatives (rs : list regex) : regex := fold_right Alt Void rs.

(** A character class given by its members, [[...]]. *)
Definition one_of (members : string) : regex :=
  Class (fun x => existsb (Ascii.eqb x) (list_ascii_of_string members)).

(** *** Stateful code that may raise

    A computation over a state [S] returns a value or raises; the state
    changes made before a [raise] stay, as in Python. *)
Definition M (S A : Type) : Type := S -> outcome A * S.

Definition ret {S A} (a : A) : M S A := fun st => (Returned a, st).
Definition raise {S A} (e : exn) : M S A := fun st => (Raised e, st).
Definition bind {S A B} (m : M S A) (k : A -> M S B) : M S B :=
  fun st =>
    match m st with
    | (Returned a, st') => k a st'
    | (Raised e, st') => (Raised e, st')
    end.

(** A call of a function that has no [raise] of its own. *)
Definition call {S A} (f : S -> A * S) : M S A :=
  fun st => let '(a, st') := f st in (Returned a, st').
Definition effect {S} (f : S -> S) : M S unit :=
  fun st => (Returned tt, f st).

(** [try: body  except E as e: handler], where [catches e] tells whether
    [e] is an instance of [E]. *)
Definition try_except {S A} (body : M S A) (catches : exn -> bool)
    (handler : exn -> M S A) : M S A :=
  fun st =>
    match body st with
    | (Returned a, st') => (Returned a, st')
    | (Raised e, st') => if catches e then handler e st' else (Raised e, st')
    end.

(** [except Exception]: every modelled exception. *)
Definition Exception (e : exn) : bool := true.
(** [except JWTError] *)
Definition is_JWTError (e : exn) : bool :=
  match e with JWTError _ => true | _ => false end.

End Py.

Import Py.

Notation "x <- c1 ;; c2" := (Py.bind c1 (fun x => c2))
  (at level 100, c1 at next level, right associativity).
Notation "c1 ;;; c2" := (Py.bind c1 (fun _ => c2))
  (at level 100, right associativity).

(** ** Collaborators outside the repository *)

(** The request object of the web framework, as far as the code reads it. *)
Module Http.

Record Request : Type := {
  headers : list (string * string);   (* names in lower case, as the server delivers them *)
  client : option string;             (* [request.client.host] *)
  method : string;
  url_path : string;
  url_query : string
}.

(** [request.headers.get(name)]: the first header of that name, compared
    without regard to case. *)
Definition headers_get (name : string) (r : Request) : option string :=
  snd <$> List.find (fun kv => String.eqb (fst kv) (lower name)) (headers r).

End Http.

(** The rows of the [users] table that the code reads or writes, and the
    queries it makes. *)
Module Database.

Record User : Type := {
  id : string;
  email : string;
  username : string;
  hashed_password : string;
  is_active : bool;
  is_verified : bool;
  last_login : option Z;
  last_login_ip : option string
}.

(** [db.query(User).filter(p).first()] *)
Definition query_first (p : User -> bool) (db : list User) : option User :=
  List.find p db.

End Database.

(** Signed tokens ([jose.jwt]).  The signature is idealised: a token
    verifies under exactly the key it was signed with.  A string that is not
    a signed token at all is [NotAToken]. *)
Module Jose.

Inductive claim : Type :=
| CStr (s : string)
| CInt (z : Z)
| CDatetime (t : Z).

Inductive token : Type :=
| Signed (payload : gmap string claim) (key : string) (alg : string)
| NotAToken (raw : string).

(** [timegm(t.utctimetuple())]: whole seconds. *)
Definition seconds (t : Z) : Z := t / 1000000.

(** [jwt.encode(claims, key, algorithm)]; a [datetime] under [exp] is
    stored as whole seconds. *)
Definition encode (claims : gmap string claim) (key alg : string) : token :=
  Signed
    (match claims !! "exp" with
     | Some (CDatetime t) => <["exp" := CInt (seconds t)]> claims
     | _ => claims
     end) key alg.

(** [jwt.decode(token, key, algorithms)] at the clock reading [now]: the
    algorithm, the signature and the expiry.  The tokens of this program
    carry [sub], [exp] and [type]; the checks that the library makes of the
    other registered claims ([aud], [nbf], [iat], [iss], [jti], [at_hash])
    are not modelled; the tokens whose acceptance is stated below are made
    from [{"sub": <id>}] alone, as the program makes them. *)
Definition decode (now : Z) (tok : token) (key : string)
    (algorithms : list string) : outcome (gmap string claim) :=
  match tok with
  | NotAToken _ => Raised (JWTError "Not enough segments")
  | Signed p k alg =>
      if negb (str_in alg algorithms)
      then Raised (JWTError "The specified alg value is not allowed")
      else if negb (String.eqb k key)
      then Raised (JWTError "Signature verification failed.")
      else
        match p !! "exp" with
        | Some (CInt exp) =>
            if exp <? seconds now
            then Raised (JWTError "Signature has expired.")
            else Returned p
        | Some _ => Raised (JWTError "Expiration Time claim (exp) must be an integer.")
        | None => Returned p
        end
  end.

End Jose.

(** The password-hashing context ([passlib]): an interface, since the hash
    function itself is not part of the program. *)
Record CryptContext : Type := {
  verify : string -> string -> outcome bool;   (* may raise on a hash it cannot identify *)
  hash : string -> string
}.

(** ** [apps/api/auth.py] *)

Module Auth.

(** *** Configuration *)

Definition ALGORITHM : string := "HS256".
Definition ACCESS_TOKEN_EXPIRE_MINUTES : Z := 30.
Definition REFRESH_TOKEN_EXPIRE_DAYS : Z := 7.

Definition MAX_LOGIN_ATTEMPTS : Z := 5.
Definition LOGIN_LOCKOUT_DURATION_MINUTES : Z := 30.
Definition PASSWORD_MIN_LENGTH : Z := 8.
Definition PASSWORD_REQUIRE_UPPERCASE : bool := true.
Definition PASSWORD_REQUIRE_LOWERCASE : bool := true.
Definition PASSWORD_REQUIRE_NUMBERS : bool := true.
Definition PASSWORD_REQUIRE_SPECIAL : bool := true.

(** *** The security log

    [log_security_event] writes one line to the [security] logger; the
    lines written are part of the state.  A line is kept as a record, and
    the expiry that the source formats into the [details] text is kept as a
    value. *)
Inductive details : Type :=
| NoDetails
| Text (s : string)
| LockedUntil (t : Z).           (* f"Locked until {lockout_until}" *)

Record log_line : Type := {
  line_event_type : string;
  line_user_id : option string;
  line_ip_address : option string;
  line_details : details
}.

(** *** [LoginAttemptTracker] and the module's state *)

Record attempt_record : Type := {
  count : Z;
  first_attempt : Z;
  last_attempt : Z
}.

Record LoginAttemptTracker : Type := {
  attempts : gmap string attempt_record;
  lockouts : gmap string Z
}.

(** The module globals that change while the program runs: the singleton
    [login_tracker] and what was written to [security_logger]. *)
Record state : Type := {
  login_tracker : LoginAttemptTracker;
  security_log : list log_line
}.

(** [LoginAttemptTracker()] and a freshly imported module. *)
Definition new_tracker : LoginAttemptTracker :=
  {| attempts := ∅; lockouts := ∅ |}.
Definition initial : state :=
  {| login_tracker := new_tracker; security_log := [] |}.

Definition set_tracker (t : LoginAttemptTracker) (st : state) : state :=
  {| login_tracker := t; security_log := security_log st |}.

Definition log_security_event (event_type : string)
    (user_id ip_address : option string) (d : details) (st : state) : state :=
  {| login_tracker := login_tracker st;
     security_log := security_log st ++
       [ {| line_event_type := event_type; line_user_id := user_id;
            line_ip_address := ip_address; line_details := d |} ] |}.

Definition get_attempt_key (identifier : string) : string :=
  "login_attempts:" +:+ identifier.

Definition get_lockout_key (identifier : string) : string :=
  "login_lockout:" +:+ identifier.

(** [is_locked_out]: the lazy expiry check.  An entry whose time has come
    is deleted together with the identifier's attempt record. *)
Definition is_locked_out (now : Z) (identifier : string) (st : state)
  : bool * state :=
  let self := login_tracker st in
  let lockout_key := get_lockout_key identifier in
  match lockouts self !! lockout_key with
  | Some lockout_until =>
      if now <? lockout_until then (true, st)
      else
        (false,
         set_tracker
           {| attempts := delete (get_attempt_key identifier) (attempts self);
              lockouts := delete lockout_key (lockouts self) |} st)
  | None => (false, st)
  end.

(** [record_failed_attempt]; returns [True] when the identifier is locked
    out by this call. *)
Definition record_failed_attempt (now : Z) (identifier : string)
    (ip_address user_id : option string) (st : state) : bool * state :=
  let self := login_tracker st in
  let attempt_key := get_attempt_key identifier in
  let current :=
    match attempts self !! attempt_key with
    | Some r => r
    | None => {| count := 0; first_attempt := now; last_attempt := now |}
    end in
  let updated :=
    {| count := count current + 1;
       first_attempt := first_attempt current;
       last_attempt := now |} in
  let attempts' := <[attempt_key := updated]> (attempts self) in
  let st1 :=
    log_security_event "FAILED_LOGIN" user_id ip_address
      (Text ("Attempt #" +:+ pretty (count updated)))
      (set_tracker {| attempts := attempts'; lockouts := lockouts self |} st) in
  if MAX_LOGIN_ATTEMPTS <=? count updated then
    let lockout_until := now + timedelta_minutes LOGIN_LOCKOUT_DURATION_MINUTES in
    let st2 :=
      set_tracker
        {| attempts := attempts';
           lockouts := <[get_lockout_key identifier := lockout_until]> (lockouts self) |}
        st1 in
    (true,
     log_security_event "ACCOUNT_LOCKOUT" user_id ip_address
       (LockedUntil lockout_until) st2)
  else (false, st1).

(** [record_successful_attempt]: clears the attempts and the lockout. *)
Definition record_successful_attempt (identifier : string)
    (ip_address user_id : option string) (st : state) : state :=
  let self := login_tracker st in
  log_security_event "SUCCESSFUL_LOGIN" user_id ip_address
    (Text "Login successful")
    (set_tracker
       {| attempts := delete (get_attempt_key identifier) (attempts self);
          lockouts := delete (get_lockout_key identifier) (lockouts self) |} st).

(** *** [PasswordValidator] *)

(** [re.search(r'(.)\1{2,}', s)]: a character that [.] matches (any but
    the line feed) followed by two or more copies of itself. *)
Fixpoint search_repeated (s : string) : bool :=
  match s with
  | String a (String b (String c _) as r) =>
      (negb (ord a =? 10) && Ascii.eqb a b && Ascii.eqb a c) || search_repeated r
  | _ => false
  end.

Definition uppercase_class : regex := Class is_upper_ascii.   (* [A-Z] *)
Definition lowercase_class : regex := Class is_lower_ascii.   (* [a-z] *)
Definition digit_class : regex := Class is_digit.             (* \d *)
Definition double_quote : ascii := chr 34.
Definition special_characters : string :=
  "!@#$%^&*(),.?" +:+ String double_quote ":{}|<>".
Definition special_class : regex := one_of special_characters.

Definition sequential_runs : list string :=
  ["012"; "123"; "234"; "345"; "456"; "567"; "678"; "789"; "890";
   "abc"; "bcd"; "cde"; "def"].
Definition sequential_pattern : regex := alternatives (map lit sequential_runs).

Definition common_passwords : list string :=
  ["password"; "123456"; "password123"; "admin"; "qwerty";
   "letmein"; "welcome"; "monkey"; "1234567890"].

Definition validate_password_strength (password : string) : bool * list string :=
  let errors : list string := [] in
  let errors :=
    append_if (Z.of_nat (String.length password) <? PASSWORD_MIN_LENGTH)
      ("Password must be at least " +:+ pretty PASSWORD_MIN_LENGTH +:+ " characters long")
      errors in
  let errors :=
    append_if (PASSWORD_REQUIRE_UPPERCASE && negb (re_search uppercase_class password))
      "Password must contain at least one uppercase letter" errors in
  let errors :=
    append_if (PASSWORD_REQUIRE_LOWERCASE && negb (re_search lowercase_class password))
      "Password must contain at least one lowercase letter" errors in
  let errors :=
    append_if (PASSWORD_REQUIRE_NUMBERS && negb (re_search digit_class password))
      "Password must contain at least one number" errors in
  let errors :=
    append_if (PASSWORD_REQUIRE_SPECIAL && negb (re_search special_class password))
      "Password must contain at least one special character" errors in
  (* Check for common weak patterns *)
  let errors :=
    append_if (search_repeated password)
      "Password cannot contain three consecutive identical characters" errors in
  let errors :=
    append_if (re_search sequential_pattern (lower password))
      "Password cannot contain common sequential patterns" errors in
  (* Check against common passwords *)
  let errors :=
    append_if (str_in (lower password) common_passwords)
      "Password is too common and not allowed" errors in
  (Nat.eqb (List.length errors) 0, errors).

(** *** Client address *)

Definition get_client_ip (request : Http.Request) : string :=
  (* Check for forwarded IP headers (common with load balancers) *)
  let forwarded_for := Http.headers_get "X-Forwarded-For" request in
  if some_truthy forwarded_for then
    (* Take the first IP in the chain *)
    strip (split_head "," (default "" forwarded_for))
  else
    let real_ip := Http.headers_get "X-Real-IP" request in
    if some_truthy real_ip then default "" real_ip
    else
      (* Fall back to direct connection IP *)
      default "unknown" (Http.client request).

(** *** What depends on the deployment: the environment and the hashing
    context *)
Section Deployment.

Variable environ : gmap string string.
Variable pwd_context : CryptContext.

(** [os.getenv(name, fallback)] *)
Definition getenv (name fallback : string) : string :=
  default fallback (environ !! name).

Definition DEFAULT_SECRET_KEY : string :=
  "your-secret-key-change-this-in-production".

Definition SECRET_KEY : string := getenv "SECRET_KEY" DEFAULT_SECRET_KEY.

Definition verify_password (plain_password hashed_password : string)
  : M state bool :=
  try_except
    (fun st => (verify pwd_context plain_password hashed_password, st))
    Exception
    (fun e =>
       effect (log_security_event "PASSWORD_VERIFICATION_ERROR" None None
                 (Text (str_of_exn e))) ;;;
       ret false).


Definition create_access_token (now : Z) (data : gmap string Jose.claim)
    (expires_delta : option Z) : Jose.token :=
  let to_encode := data in
  let expire :=
    match expires_delta with
    | Some d =>
        if d =? 0 then now + timedelta_minutes ACCESS_TOKEN_EXPIRE_MINUTES
        else now + d
    | None => now + timedelta_minutes ACCESS_TOKEN_EXPIRE_MINUTES
    end in
  let to_encode :=
    <["type" := Jose.CStr "access"]> (<["exp" := Jose.CDatetime expire]> to_encode) in
  Jose.encode to_encode SECRET_KEY ALGORITHM.

Definition create_refresh_token (now : Z) (data : gmap string Jose.claim)
  : Jose.token :=
  let to_encode := data in
  let expire := now + timedelta_days REFRESH_TOKEN_EXPIRE_DAYS in
  let to_encode :=
    <["type" := Jose.CStr "refresh"]> (<["exp" := Jose.CDatetime expire]> to_encode) in
  Jose.encode to_encode SECRET_KEY ALGORITHM.

Definition credentials_exception : exn :=
  HTTPException 401 "Could not validate credentials".

(** [User.id == user_id] for a claim read from a token. *)
Definition id_is (c : Jose.claim) (u : Database.User) : bool :=
  match c with
  | Jose.CStr x => String.eqb (Database.id u) x
  | _ => false
  end.

Definition get_current_user (now : Z) (token : Jose.token)
    (db : list Database.User) : M state Database.User :=
  user_id <-
    try_except
      (payload <- (fun st => (Jose.decode now token SECRET_KEY [ALGORITHM], st)) ;;
       let user_id := payload !! "sub" in
       let token_type := payload !! "type" in
       match user_id, token_type with
       | Some uid, Some (Jose.CStr "access") => ret uid
       | _, _ =>
           effect (log_security_event "INVALID_TOKEN" None None
                     (Text "Invalid token format")) ;;;
           raise credentials_exception
       end)
      is_JWTError
      (fun e =>
         effect (log_security_event "JWT_ERROR" None None (Text (str_of_exn e))) ;;;
         raise credentials_exception) ;;
  match Database.query_first (id_is user_id) db with
  | None =>
      effect (log_security_event "USER_NOT_FOUND"
                (match user_id with Jose.CStr x => Some x | _ => None end)
                None NoDetails) ;;;
      raise credentials_exception
  | Some user => ret user
  end.

Definition get_current_active_user (current_user : Database.User)
  : M state Database.User :=
  if negb (Database.is_active current_user) then
    effect (log_security_event "INACTIVE_USER_ACCESS"
              (Some (Database.id current_user)) None NoDetails) ;;;
    raise (HTTPException 400 "Inactive user")
  else ret current_user.

(** [authenticate_user]: [Returned (Some user)] is the user, [Returned
    None] is [False].  The returned user carries the new [last_login]
    fields; committing them is left to the caller. *)
Definition authenticate_user (now : Z) (db : list Database.User)
    (email password : string) (request : option Http.Request)
  : M state (option Database.User) :=
  let client_ip :=
    match request with Some r => get_client_ip r | None => "unknown" end in
  locked <- call (is_locked_out now client_ip) ;;
  if locked : bool then
    effect (log_security_event "LOCKOUT_ACCESS_ATTEMPT" None (Some client_ip)
              NoDetails) ;;;
    raise (HTTPException 423
             ("Too many failed login attempts. Try again in "
                +:+ pretty LOGIN_LOCKOUT_DURATION_MINUTES +:+ " minutes."))
  else
    match Database.query_first (fun u => String.eqb (Database.email u) email) db with
    | None =>
        call (record_failed_attempt now client_ip (Some client_ip) None) ;;;
        effect (log_security_event "LOGIN_NONEXISTENT_USER" None (Some client_ip)
                  (Text ("Email: " +:+ email))) ;;;
        ret None
    | Some user =>
        let uid := Database.id user in
        if negb (Database.is_active user) then
          effect (log_security_event "LOGIN_INACTIVE_USER" (Some uid)
                    (Some client_ip) NoDetails) ;;;
          raise (HTTPException 423 "Account is deactivated")
        else
          ok <- verify_password password (Database.hashed_password user) ;;
          if negb ok then
            is_locked <- call (record_failed_attempt now ("user:" +:+ uid)
                                 (Some client_ip) (Some uid)) ;;
            if is_locked : bool then
              raise (HTTPException 423
                       ("Account temporarily locked due to too many failed attempts. Try again in "
                          +:+ pretty LOGIN_LOCKOUT_DURATION_MINUTES +:+ " minutes."))
            else ret None
          else
            effect (record_successful_attempt ("user:" +:+ uid)
                      (Some client_ip) (Some uid)) ;;;
            ret (Some
                   {| Database.id := uid;
                      Database.email := Database.email user;
                      Database.username := Database.username user;
                      Database.hashed_password := Database.hashed_password user;
                      Database.is_active := Database.is_active user;
                      Database.is_verified := Database.is_verified user;
                      Database.last_login := Some now;
                      Database.last_login_ip := Some client_ip |})
    end.

End Deployment.

End Auth.

(** ** [apps/api/monitoring.py] *)

Module Monitoring.

Inductive SecurityEventType : Type :=
| LOGIN_SUCCESS | LOGIN_FAILED | LOGIN_BLOCKED | ACCOUNT_LOCKOUT
| PASSWORD_RESET | EMAIL_VERIFICATION | SUSPICIOUS_ACTIVITY | API_ABUSE
| UNAUTHORIZED_ACCESS | DATA_ACCESS | ADMIN_ACTION | PAYMENT_EVENT
| CODE_EXECUTION | FILE_ACCESS | RATE_LIMIT_EXCEEDED.

Inductive AlertSeverity : Type := LOW | MEDIUM | HIGH | CRITICAL.

(** The [.value] of the two enumerations. *)
Definition event_type_value (t : SecurityEventType) : string :=
  match t with
  | LOGIN_SUCCESS => "LOGIN_SUCCESS" | LOGIN_FAILED => "LOGIN_FAILED"
  | LOGIN_BLOCKED => "LOGIN_BLOCKED" | ACCOUNT_LOCKOUT => "ACCOUNT_LOCKOUT"
  | PASSWORD_RESET => "PASSWORD_RESET" | EMAIL_VERIFICATION => "EMAIL_VERIFICATION"
  | SUSPICIOUS_ACTIVITY => "SUSPICIOUS_ACTIVITY" | API_ABUSE => "API_ABUSE"
  | UNAUTHORIZED_ACCESS => "UNAUTHORIZED_ACCESS" | DATA_ACCESS => "DATA_ACCESS"
  | ADMIN_ACTION => "ADMIN_ACTION" | PAYMENT_EVENT => "PAYMENT_EVENT"
  | CODE_EXECUTION => "CODE_EXECUTION" | FILE_ACCESS => "FILE_ACCESS"
  | RATE_LIMIT_EXCEEDED => "RATE_LIMIT_EXCEEDED"
  end.

Definition severity_value (s : AlertSeverity) : string :=
  match s with
  | LOW => "LOW" | MEDIUM => "MEDIUM" | HIGH => "HIGH" | CRITICAL => "CRITICAL"
  end.

Record SecurityEvent : Type := {
  event_type : SecurityEventType;
  user_id : option string;
  ip_address : option string;
  user_agent : option string;
  endpoint : option string;
  method : option string;
  status_code : option Z;
  severity : AlertSeverity;
  description : option string;
  context : option (list (string * string));
  timestamp : Z
}.

(** *** [ThreatDetector] *)

Record ThreatDetector : Type := {
  failed_attempts : gmap string (list Z);     (* defaultdict(list) *)
  request_patterns : gmap string (list Z);    (* defaultdict of deque(maxlen=100) *)
  suspicious_ips : gset string;
  blocked_ips : gset string
}.

Definition new_detector : ThreatDetector :=
  {| failed_attempts := ∅; request_patterns := ∅;
     suspicious_ips := ∅; blocked_ips := ∅ |}.

(** The thresholds and patterns set in [__init__]; nothing assigns them
    again. *)
Definition max_failed_attempts : Z := 5.
Definition max_requests_per_minute : Z := 60.

(** A pattern: its text and what it matches under [re.IGNORECASE]. *)
Record pattern : Type := { source : string; compiled : regex }.

Definition suspicious_patterns : list pattern :=
  [ {| source := "(\.\./){2,}";
       compiled := two_or_more (lit_i "../") |};
    {| source := "<script.*?>";
       compiled := Cat (lit_i "<script") (Cat (Star dot) (lit_i ">")) |};
    {| source := "union.*select";
       compiled := Cat (lit_i "union") (Cat (Star dot) (lit_i "select")) |};
    {| source := "eval\s*\(";
       compiled := Cat (lit_i "eval") (Cat (Star (Class is_space)) (lit_i "(")) |};
    {| source := "exec\s*\(";
       compiled := Cat (lit_i "exec") (Cat (Star (Class is_space)) (lit_i "(")) |} ].

(** [deque(maxlen=n).append(x)]: the oldest entry leaves a full deque. *)
Definition deque_append (maxlen : nat) (x : Z) (d : list Z) : list Z :=
  let d' := d ++ [x] in
  if (maxlen <? List.length d')%nat then tl d' else d'.

Definition _get_client_ip (request : Http.Request) : string :=
  let forwarded_for := Http.headers_get "X-Forwarded-For" request in
  if some_truthy forwarded_for then
    strip (split_head "," (default "" forwarded_for))
  else
    let real_ip := Http.headers_get "X-Real-IP" request in
    if some_truthy real_ip then default "" real_ip
    else default "unknown" (Http.client request).

Definition _check_malicious_patterns (now : Z) (request : Http.Request)
    (user_id : option string) (ip_address : string) : list SecurityEvent :=
  let path := Http.url_path request in
  let query := Http.url_query request in
  flat_map
    (fun p =>
       if re_search (compiled p) (path +:+ query)
       then [ {| event_type := SUSPICIOUS_ACTIVITY;
                 user_id := user_id;
                 ip_address := Some ip_address;
                 user_agent := None; endpoint := None; method := None;
                 status_code := None;
                 severity := HIGH;
                 description := Some ("Malicious pattern detected: " +:+ source p);
                 context := Some [("path", path); ("query", query)];
                 timestamp := now |} ]
       else [])
    suspicious_patterns.

(** The event of the blocked-address check. *)
Definition blocked_event (now : Z) (ip_address : string) : SecurityEvent :=
  {| event_type := UNAUTHORIZED_ACCESS;
     user_id := None;
     ip_address := Some ip_address;
     user_agent := None; endpoint := None; method := None; status_code := None;
     severity := HIGH;
     description := Some "Request from blocked IP address";
     context := None;
     timestamp := now |}.

(** The event of the rate check. *)
Definition rate_event (now : Z) (ip_address : string) (user_id : option string)
    (n : nat) : SecurityEvent :=
  {| event_type := RATE_LIMIT_EXCEEDED;
     user_id := user_id;
     ip_address := Some ip_address;
     user_agent := None; endpoint := None; method := None; status_code := None;
     severity := MEDIUM;
     description := Some ("Rate limit exceeded: " +:+ pretty n +:+ " requests/minute");
     context := None;
     timestamp := now |}.

Definition analyze_request (now : Z) (request : Http.Request)
    (user_id : option string) (self : ThreatDetector)
  : list SecurityEvent * ThreatDetector :=
  let events : list SecurityEvent := [] in
  let ip_address := _get_client_ip request in
  (* Check if IP is already blocked *)
  let events :=
    if decide (ip_address ∈ blocked_ips self)
    then events ++ [blocked_event now ip_address]
    else events in
  (* Rate limiting check *)
  let window := deque_append 100 now (default [] (request_patterns self !! ip_address)) in
  let request_patterns' := <[ip_address := window]> (request_patterns self) in
  let minute_ago := now - timedelta_minutes 1 in
  let recent_requests := List.filter (fun req_time => minute_ago <? req_time) window in
  let exceeded := max_requests_per_minute <? Z.of_nat (List.length recent_requests) in
  let events :=
    if exceeded
    then events ++ [rate_event now ip_address user_id (List.length recent_requests)]
    else events in
  let suspicious_ips' :=
    if exceeded then {[ip_address]} ∪ suspicious_ips self else suspicious_ips self in
  (* Analyze request content for malicious patterns *)
  let malicious_events := _check_malicious_patterns now request user_id ip_address in
  let events := events ++ malicious_events in
  (events,
   {| failed_attempts := failed_attempts self;
      request_patterns := request_patterns';
      suspicious_ips := suspicious_ips';
      blocked_ips := blocked_ips self |}).

Definition record_failed_login (now : Z) (ip_address : string)
    (user_id : option string) (self : ThreatDetector) : bool * ThreatDetector :=
  let appended := default [] (failed_attempts self !! ip_address) ++ [now] in
  (* Clean old attempts (older than 30 minutes) *)
  let cutoff := now - timedelta_minutes 30 in
  let kept := List.filter (fun attempt => cutoff <? attempt) appended in
  let failed_attempts' := <[ip_address := kept]> (failed_attempts self) in
  if max_failed_attempts <=? Z.of_nat (List.length kept) then
    (true,
     {| failed_attempts := failed_attempts';
        request_patterns := request_patterns self;
        suspicious_ips := suspicious_ips self;
        blocked_ips := {[ip_address]} ∪ blocked_ips self |})
  else
    (false,
     {| failed_attempts := failed_attempts';
        request_patterns := request_patterns self;
        suspicious_ips := suspicious_ips self;
        blocked_ips := blocked_ips self |}).

(** *** [SecurityLogger.log_security_event]

    The two sinks are collaborators that act on some outside world [W]:
    the [security] logger and the database session.  The logger is the one
    of the standard library with the handlers this module attaches (a
    [FileHandler], a [StreamHandler], a [RotatingFileHandler]): a failure
    inside a handler is taken by the handler itself ([Handler.handleError]),
    so [info] and [error] return, whatever they did to the world; the same
    logger is written to in [auth.py].  [db.add], and the construction of
    the row before it, may raise. *)
Section Sinks.

Variable W : Type.

Record Logger : Type := {
  info : string -> W -> W;
  error : string -> W -> W
}.

(** The row handed to [db.add]. *)
Record SecurityLog : Type := {
  log_user_id : option string;
  log_ip_address : option string;
  log_user_agent : option string;
  log_event_type : string;
  log_event_description : option string;
  log_severity : string;
  log_endpoint : option string;
  log_method : option string;
  log_status_code : option Z;
  log_context : option (list (string * string))
}.

Record Session : Type := { add : SecurityLog -> M W unit }.

(** [f"{x}"] of an optional string. *)
Definition str_opt (o : option string) : string := default "None" o.

Definition log_security_event (security_logger : Logger)
    (event : SecurityEvent) (db : option Session) : M W unit :=
  try_except
    ((* Log to file *)
     effect
       (info security_logger
          (event_type_value (event_type event) +:+ " | User: " +:+ str_opt (user_id event)
             +:+ " | IP: " +:+ str_opt (ip_address event)
             +:+ " | Severity: " +:+ severity_value (severity event)
             +:+ " | Description: " +:+ str_opt (description event))) ;;;
     (* Store in database if available *)
     match db with
     | Some db =>
         add db
           {| log_user_id := user_id event;
              log_ip_address := ip_address event;
              log_user_agent := user_agent event;
              log_event_type := event_type_value (event_type event);
              log_event_description := description event;
              log_severity := severity_value (severity event);
              log_endpoint := endpoint event;
              log_method := method event;
              log_status_code := status_code event;
              log_context := context event |}
     | None => ret tt
     end)
    Exception
    (fun e =>
       effect
         (error security_logger ("Failed to log security event: " +:+ str_of_exn e))).

End Sinks.

End Monitoring.

(** ** [apps/api/main.py]: the token endpoints *)

Module Main.

(** [schemas.Token] *)
Module Schemas.
Record Token : Type := {
  access_token : Jose.token;
  refresh_token : Jose.token;
  token_type : string
}.
End Schemas.

(** [not user_id] for a claim read with [payload.get("sub")]. *)
Definition falsy (c : option Jose.claim) : bool :=
  match c with
  | None => true
  | Some (Jose.CStr x) => negb (truthy x)
  | Some (Jose.CInt z) => z =? 0
  | Some (Jose.CDatetime _) => false
  end.

Section Deployment.

Variable environ : gmap string string.

(** The pair of tokens both endpoints answer with. *)
Definition issue_tokens (now : Z) (user : Database.User) : Schemas.Token :=
  let access_token_expires := timedelta_minutes Auth.ACCESS_TOKEN_EXPIRE_MINUTES in
  {| Schemas.access_token :=
       Auth.create_access_token environ now
         {["sub" := Jose.CStr (Database.id user)]} (Some access_token_expires);
     Schemas.refresh_token :=
       Auth.create_refresh_token environ now
         {["sub" := Jose.CStr (Database.id user)]};
     Schemas.token_type := "bearer" |}.

(** [POST /auth/refresh].  Every exception raised in the body, the
    [HTTPException]s included, leaves as one 401.  (The rate limit of the
    decorator is applied by the framework before the body runs.) *)
Definition refresh_token (now : Z) (refresh_token : Jose.token)
    (db : list Database.User) : M Auth.state Schemas.Token :=
  try_except
    (payload <- (fun st =>
                   (Jose.decode now refresh_token (Auth.SECRET_KEY environ)
                      [Auth.ALGORITHM], st)) ;;
     let user_id := payload !! "sub" in
     if falsy user_id then raise (HTTPException 401 "Invalid refresh token")
     else
       match Database.query_first
          (match user_id with
           | Some c => Auth.id_is c
           | None => fun _ => false
           end) db with
       | None => raise (HTTPException 401 "User not found")
       | Some user => ret (issue_tokens now user)
       end)
    Exception
    (fun _ => raise (HTTPException 401 "Invalid refresh token")).

End Deployment.

End Main.

(** *** [POST /auth/login] and [GET /auth/me]

    The two endpoints of [main.py] that complete the session: [login] calls
    [authenticate_user], commits, and issues the pair of tokens; the
    dependency chain of [get_me] is [get_current_user] and then
    [get_current_active_user].  (The rate limits of the decorators are
    applied by the framework before the bodies run.) *)

Module Endpoints.

Section Deployment.

Variable environ : gmap string string.
Variable pwd_context : CryptContext.

(** [commit] is what [db.commit(); db.refresh(user)] does in this call, and
    [rollback] what [db.rollback()] does in the handler. *)
Definition login (now : Z) (db : list Database.User) (commit rollback : outcome unit)
    (form_username form_password : string) (request : Http.Request)
  : M Auth.state Main.Schemas.Token :=
  (* Use the secure authenticate_user function that handles all security checks *)
  user <- Auth.authenticate_user pwd_context now db form_username form_password
            (Some request) ;;
  match user with
  | None => raise (HTTPException 401 "Incorrect email or password")
  | Some user =>
      (* Commit the login timestamp update *)
      try_except (fun st => (commit, st)) Exception
        (fun _ =>
           (fun st => (rollback, st)) ;;;
           raise (HTTPException 500 "Database error during login")) ;;;
      (* Create tokens *)
      ret (Main.issue_tokens environ now user)
  end.

Definition get_me (now : Z) (token : Jose.token) (db : list Database.User)
  : M Auth.state Database.User :=
  current_user <- Auth.get_current_user environ now token db ;;
  Auth.get_current_active_user current_user.

End Deployment.

End Endpoints.

(** *** The model endpoints of [main.py]

    [POST /models], [GET /models], [GET], [PUT] and [DELETE
    /models/{model_id}] over the table [saved_models].  The state is the
    table; [commit] is what [db.commit(); db.refresh(model)] does in the
    call, [new_id] what [uuid.uuid4()] returns.  Each endpoint runs for the
    user that [get_current_active_user] has returned. *)

Module Models.

(** The columns of [saved_models] that the endpoints read or write;
    [model_data] is the property of that name. *)
Record SavedModel : Type := {
  id : string;
  user_id : string;
  name : string;
  description : option string;
  model_data : string;
  updated_at : Z
}.

(** [schemas.ModelCreate] and [schemas.ModelUpdate] *)
Module ModelCreate.
Record t : Type := {
  name : string;
  description : option string;
  model_data : string
}.
End ModelCreate.

Module ModelUpdate.
Record t : Type := {
  name : option string;
  description : option string;
  model_data : option string
}.
End ModelUpdate.

(** [SavedModel.id == model_id, SavedModel.user_id == current_user.id] *)
Definition owned_by (current_user : Database.User) (m : SavedModel) : bool :=
  String.eqb (user_id m) (Database.id current_user).

Definition is_model (model_id : string) (current_user : Database.User)
    (m : SavedModel) : bool :=
  String.eqb (id m) model_id && owned_by current_user m.

(** The row that [query.first()] returned, written back or deleted. *)
Fixpoint replace_first (p : SavedModel -> bool) (x : SavedModel)
    (table : list SavedModel) : list SavedModel :=
  match table with
  | [] => []
  | m :: rest => if p m then x :: rest else m :: replace_first p x rest
  end.

Fixpoint remove_first (p : SavedModel -> bool) (table : list SavedModel)
  : list SavedModel :=
  match table with
  | [] => []
  | m :: rest => if p m then rest else m :: remove_first p rest
  end.

(** [db.commit()], then the change [f] to the table when it went through. *)
Definition committing {A} (commit : outcome unit) (a : A)
    (f : list SavedModel -> list SavedModel) : M (list SavedModel) A :=
  fun table =>
    match commit with
    | Returned _ => (Returned a, f table)
    | Raised e => (Raised e, table)
    end.

Definition not_found : exn := HTTPException 404 "Model not found".

Definition create_model (now : Z) (new_id : string) (commit : outcome unit)
    (model_data : ModelCreate.t) (current_user : Database.User)
  : M (list SavedModel) SavedModel :=
  let model :=
    {| id := new_id;
       user_id := Database.id current_user;
       name := ModelCreate.name model_data;
       description := ModelCreate.description model_data;
       model_data := ModelCreate.model_data model_data;
       updated_at := now |} in
  committing commit model (fun table => table ++ [model]).

(** [skip] and [limit] are not negative here: what the database does with a
    negative offset or limit depends on the backend. *)
Definition list_models (skip limit : nat) (current_user : Database.User)
  : M (list SavedModel) (list SavedModel * nat) :=
  fun table =>
    (* Limit maximum items per request *)
    let limit := Nat.min limit 100 in
    let models := firstn limit (skipn skip (List.filter (owned_by current_user) table)) in
    let total := length (List.filter (owned_by current_user) table) in
    (Returned (models, total), table).

Definition get_model (model_id : string) (current_user : Database.User)
  : M (list SavedModel) SavedModel :=
  fun table =>
    match List.find (is_model model_id current_user) table with
    | None => (Raised not_found, table)
    | Some model => (Returned model, table)
    end.

Definition update_model (now : Z) (commit : outcome unit) (model_id : string)
    (model_update : ModelUpdate.t) (current_user : Database.User)
  : M (list SavedModel) SavedModel :=
  fun table =>
    match List.find (is_model model_id current_user) table with
    | None => (Raised not_found, table)
    | Some model =>
        (* Update fields *)
        let model :=
          {| id := id model;
             user_id := user_id model;
             name := default (name model) (ModelUpdate.name model_update);
             description :=
               match ModelUpdate.description model_update with
               | Some d => Some d
               | None => description model
               end;
             model_data := default (model_data model) (ModelUpdate.model_data model_update);
             updated_at := now |} in
        committing commit model
          (replace_first (is_model model_id current_user) model) table
    end.

Definition delete_model (commit : outcome unit) (model_id : string)
    (current_user : Database.User) : M (list SavedModel) string :=
  fun table =>
    match List.find (is_model model_id current_user) table with
    | None => (Raised not_found, table)
    | Some model =>
        committing commit "Model deleted successfully"
          (remove_first (is_model model_id current_user)) table
    end.

End Models.

(** ** Vocabulary of the specification

    Observations on the states above and the sequences of calls that the
    properties below speak about. *)

Module Spec.

Import Auth.

(** The lockout expiry and the failure count held for an identifier. *)
Definition lockout_expiry (identifier : string) (st : state) : option Z :=
  lockouts (login_tracker st) !! get_lockout_key identifier.

Definition failure_count (identifier : string) (st : state) : Z :=
  match attempts (login_tracker st) !! get_attempt_key identifier with
  | Some r => count r
  | None => 0
  end.

(** The states of an identifier: nothing is held for it; a lockout entry is
    held for it. *)
Definition Clean (identifier : string) (st : state) : Prop :=
  attempts (login_tracker st) !! get_attempt_key identifier = None /\
  lockouts (login_tracker st) !! get_lockout_key identifier = None.

Definition Locked (identifier : string) (st : state) : Prop :=
  is_Some (lockout_expiry identifier st).

(** [record_failed_attempt] once per clock reading, in order; the results
    of the calls and the final state. *)
Fixpoint record_failures (times : list Z) (identifier : string)
    (ip_address user_id : option string) (st : state) : list bool * state :=
  match times with
  | [] => ([], st)
  | now :: rest =>
      let '(b, st1) := record_failed_attempt now identifier ip_address user_id st in
      let '(bs, st2) := record_failures rest identifier ip_address user_id st1 in
      (b :: bs, st2)
  end.

(** The calls on the tracker, and the state after one of them. *)
Inductive tracker_call : Type :=
| IsLockedOut (identifier : string)
| RecordFailure (identifier : string) (ip_address user_id : option string)
| RecordSuccess (identifier : string) (ip_address user_id : option string).

Definition after_call (now : Z) (c : tracker_call) (st : state) : state :=
  match c with
  | IsLockedOut i => snd (is_locked_out now i st)
  | RecordFailure i ip uid => snd (record_failed_attempt now i ip uid st)
  | RecordSuccess i ip uid => record_successful_attempt i ip uid st
  end.

(** [authenticate_user] for several attempts in turn over the same users
    and from the same request; an attempt is a clock reading, an email and a
    password. *)
Fixpoint authenticate_in_turn (pwd_context : CryptContext) (db : list Database.User)
    (request : option Http.Request) (tries : list (Z * string * string)) (st : state)
  : list (outcome (option Database.User)) * state :=
  match tries with
  | [] => ([], st)
  | (now, email, password) :: rest =>
      let '(r, st1) := authenticate_user pwd_context now db email password request st in
      let '(rs, st2) := authenticate_in_turn pwd_context db request rest st1 in
      (r :: rs, st2)
  end.

(** The address under which [authenticate_user] counts a request. *)
Definition client_ip_of (request : option Http.Request) : string :=
  match request with Some r => get_client_ip r | None => "unknown" end.



(** The lockout length, [timedelta(minutes=LOGIN_LOCKOUT_DURATION_MINUTES)]. *)
Definition lockout_duration : Z := timedelta_minutes LOGIN_LOCKOUT_DURATION_MINUTES.

End Spec.

(** The password rules as the specification lists them. *)
Module PolicySpec.

Import Auth.

Inductive rule : Type :=
| MinLength | Uppercase | Lowercase | Digit | Special
| NoRepeat | NoSequence | NotCommon.


(** Three identical characters in a row, whatever the character. *)
Fixpoint has_triple (s : string) : bool :=
  match s with
  | String a (String b (String c _) as r) =>
      (Ascii.eqb a b && Ascii.eqb a c) || has_triple r
  | _ => false
  end.

Definition satisfies (r : rule) (p : string) : bool :=
  match r with
  | MinLength => 8 <=? Z.of_nat (String.length p)
  | Uppercase => existsb is_upper_ascii (list_ascii_of_string p)
  | Lowercase => existsb is_lower_ascii (list_ascii_of_string p)
  | Digit => existsb is_digit (list_ascii_of_string p)
  | Special =>
      existsb (fun c => existsb (Ascii.eqb c) (list_ascii_of_string special_characters))
        (list_ascii_of_string p)
  | NoRepeat => negb (has_triple p)
  | NoSequence => negb (existsb (contains (lower p)) sequential_runs)
  | NotCommon => negb (existsb (String.eqb (lower p)) common_passwords)
  end.

Definition message (r : rule) : string :=
  match r with
  | MinLength => "Password must be at least 8 characters long"
  | Uppercase => "Password must contain at least one uppercase letter"
  | Lowercase => "Password must contain at least one lowercase letter"
  | Digit => "Password must contain at least one number"
  | Special => "Password must contain at least one special character"
  | NoRepeat => "Password cannot contain three consecutive identical characters"
  | NoSequence => "Password cannot contain common sequential patterns"
  | NotCommon => "Password is too common and not allowed"
  end.


Definition line_feed : ascii := chr 10.
Definition three_line_feeds : string :=
  String line_feed (String line_feed (String line_feed "")).

End PolicySpec.

(** The same for the threat detector. *)
Module DetectorSpec.

Import Monitoring.

(** The detector with one address taken out of the blocked set. *)
Definition unblocked (ip_address : string) (self : ThreatDetector) : ThreatDetector :=
  {| failed_attempts := failed_attempts self;
     request_patterns := request_patterns self;
     suspicious_ips := suspicious_ips self;
     blocked_ips := blocked_ips self ∖ {[ip_address]} |}.

(** [record_failed_login] once per clock reading, in order. *)
Fixpoint record_failed_logins (times : list Z) (ip_address : string)
    (user_id : option string) (self : ThreatDetector) : list bool * ThreatDetector :=
  match times with
  | [] => ([], self)
  | now :: rest =>
      let '(b, d1) := record_failed_login now ip_address user_id self in
      let '(bs, d2) := record_failed_logins rest ip_address user_id d1 in
      (b :: bs, d2)
  end.

(** The failed logins held for an address. *)
Definition held (ip : string) (self : ThreatDetector) : list Z :=
  default [] (failed_attempts self !! ip).

(** What [record_failed_login] keeps of the older entries [pre]. *)
Definition pruned (now : Z) (pre : list Z) : list Z :=
  List.filter (fun attempt => now - timedelta_minutes 30 <? attempt) pre.

(** The clock readings in the request window of an address. *)
Definition window (ip : string) (self : ThreatDetector) : list Z :=
  default [] (request_patterns self !! ip).

(** [analyze_request] for several arrivals in turn; an arrival is a clock
    reading and a request.  The events of each call and the final detector. *)
Fixpoint analyze_requests (arrivals : list (Z * Http.Request))
    (user_id : option string) (self : ThreatDetector)
  : list (list SecurityEvent) * ThreatDetector :=
  match arrivals with
  | [] => ([], self)
  | (now, request) :: rest =>
      let '(events, d1) := analyze_request now request user_id self in
      let '(more, d2) := analyze_requests rest user_id d1 in
      (events :: more, d2)
  end.

(** All the arrivals come from one address; no event of the rate check. *)
Definition from_address (ip : string) (arrivals : list (Z * Http.Request)) : Prop :=
  Forall (fun a => _get_client_ip (snd a) = ip) arrivals.

Definition no_rate_event (events : list SecurityEvent) : Prop :=
  Forall (fun e => event_type e <> RATE_LIMIT_EXCEEDED) events.

(** All the readings lie less than [m] minutes apart. *)
Definition within_minutes (m : Z) (times : list Z) : Prop :=
  forall t t', In t times -> In t' times -> t' - t < timedelta_minutes m.

(** The operations of the detector, and the detector after some of them. *)
Inductive detector_call : Type :=
| Analyze (now : Z) (request : Http.Request) (user_id : option string)
| RecordFailedLogin (now : Z) (ip_address : string) (user_id : option string).

Definition after_detector_call (self : ThreatDetector) (c : detector_call)
  : ThreatDetector :=
  match c with
  | Analyze now request uid => snd (analyze_request now request uid self)
  | RecordFailedLogin now ip uid => snd (record_failed_login now ip uid self)
  end.

Definition after_detector_calls (calls : list detector_call) (self : ThreatDetector)
  : ThreatDetector :=
  fold_left after_detector_call calls self.

End DetectorSpec.

(** ** Vocabulary for the security event log *)

Module SinkSpec.

Import Monitoring.



End SinkSpec.

(** ** Vocabulary for sequences of tracker calls *)

Module TrackerSpec.

Import Auth Spec.

(** The identifier a call is about. *)
Definition call_identifier (c : tracker_call) : string :=
  match c with
  | IsLockedOut i => i
  | RecordFailure i _ _ => i
  | RecordSuccess i _ _ => i
  end.

(** The state after some calls, each at its clock reading. *)
Definition after_calls (calls : list (Z * tracker_call)) (st : state) : state :=
  fold_left (fun s c => after_call (fst c) (snd c) s) calls st.

(** Every lockout entry stands beside an attempt record whose count has
    reached the maximum. *)
Definition lockouts_backed (st : state) : Prop :=
  forall i e, lockout_expiry i st = Some e -> MAX_LOGIN_ATTEMPTS <= failure_count i st.

End TrackerSpec.

(** ** Vocabulary for client addresses *)

Module AddressSpec.

(** The character [c] occurs in [s]. *)
Fixpoint has_char (c : ascii) (s : string) : bool :=
  match s with
  | EmptyString => false
  | String a r => Ascii.eqb a c || has_char c r
  end.

(** [s] begins, or ends, with white space. *)
Definition starts_with_space (s : string) : bool :=
  match s with
  | EmptyString => false
  | String c _ => is_space c
  end.

Fixpoint ends_with_space (s : string) : bool :=
  match s with
  | EmptyString => false
  | String c EmptyString => is_space c
  | String _ r => ends_with_space r
  end.

(** [s] is white space only. *)
Fixpoint all_space (s : string) : bool :=
  match s with
  | EmptyString => true
  | String c r => is_space c && all_space r
  end.

(** What follows an entry of a comma-separated list: nothing, or a comma
    and the rest. *)
Definition entry_end (rest : string) : bool :=
  match rest with
  | EmptyString => true
  | String c _ => Ascii.eqb c ","
  end.

(** [ip] is the first entry of the comma-separated list [v] without the
    white space around it: [v] is some white space, [ip], some white space,
    and then its end or a comma; [ip] holds no comma and neither begins nor
    ends with white space. *)
Definition first_entry_stripped (v ip : string) : Prop :=
  (exists lead trail rest,
     v = lead +:+ ip +:+ trail +:+ rest /\
     all_space lead = true /\
     all_space trail = true /\
     entry_end rest = true) /\
  has_char "," ip = false /\
  starts_with_space ip = false /\
  ends_with_space ip = false.

End AddressSpec.

(** ** Vocabulary for the history of a detector *)

Module HistorySpec.

Import Monitoring DetectorSpec.

(** The number of failed logins of [history] less than 30 minutes before
    [now]. *)
Definition recent_failures (now : Z) (history : list Z) : nat :=
  length (List.filter (fun t => now - timedelta_minutes 30 <? t) history).

(** What counting over the whole history says of each failed login in turn:
    it blocks when five or more of the failed logins so far, itself included,
    are less than 30 minutes old. *)
Fixpoint verdicts (history times : list Z) : list bool :=
  match times with
  | [] => []
  | now :: rest =>
      (5 <=? Z.of_nat (recent_failures now (history ++ [now])))
        :: verdicts (history ++ [now]) rest
  end.

(** The clock does not run backwards. *)
Fixpoint nondecreasing (times : list Z) : Prop :=
  match times with
  | [] => True
  | t :: rest => Forall (Z.le t) rest /\ nondecreasing rest
  end.

(** The calls of [record_failed_login] for an address, and the requests
    analysed from an address, among some calls. *)
Definition failed_login_calls (ip : string) (calls : list detector_call) : nat :=
  length (List.filter
            (fun c => match c with
                      | RecordFailedLogin _ i _ => bool_decide (i = ip)
                      | Analyze _ _ _ => false
                      end) calls).

Definition analyzed_requests (ip : string) (calls : list detector_call) : nat :=
  length (List.filter
            (fun c => match c with
                      | Analyze _ request _ => bool_decide (_get_client_ip request = ip)
                      | RecordFailedLogin _ _ _ => false
                      end) calls).

(** The number of requests of [history] less than a minute before [now],
    and what counting over the whole history says of each request in turn:
    the rate is exceeded when more than 60 of the requests so far, itself
    included, are less than a minute old. *)
Definition recent_requests (now : Z) (history : list Z) : nat :=
  length (List.filter (fun t => now - timedelta_minutes 1 <? t) history).

Fixpoint rate_verdicts (history times : list Z) : list bool :=
  match times with
  | [] => []
  | now :: rest =>
      (60 <? Z.of_nat (recent_requests now (history ++ [now])))
        :: rate_verdicts (history ++ [now]) rest
  end.

(** Some event of a call is the one of the rate check. *)
Definition rate_flagged (events : list SecurityEvent) : bool :=
  existsb (fun e => match event_type e with
                    | RATE_LIMIT_EXCEEDED => true
                    | _ => false
                    end) events.

(** The last [n] entries of a list. *)
Definition last_n {A} (n : nat) (l : list A) : list A :=
  skipn (length l - n) l.

End HistorySpec.

(** ** Vocabulary for the session and the model endpoints *)

Module SessionSpec.

(** A row of [users] with [last_login] and [last_login_ip] set and every
    other column as it was. *)
Definition logged_in (now : Z) (client_ip : string) (user : Database.User)
  : Database.User :=
  {| Database.id := Database.id user;
     Database.email := Database.email user;
     Database.username := Database.username user;
     Database.hashed_password := Database.hashed_password user;
     Database.is_active := Database.is_active user;
     Database.is_verified := Database.is_verified user;
     Database.last_login := Some now;
     Database.last_login_ip := Some client_ip |}.


End SessionSpec.

Module ModelSpec.

Import Models.

(** A call of one of the five model endpoints, and the table after it when
    [current_user] makes it. *)
Inductive model_call : Type :=
| Create (now : Z) (new_id : string) (commit : outcome unit) (data : ModelCreate.t)
| List (skip limit : nat)
| Get (model_id : string)
| Update (now : Z) (commit : outcome unit) (model_id : string) (data : ModelUpdate.t)
| Delete (commit : outcome unit) (model_id : string).

Definition after_model_call (current_user : Database.User) (c : model_call)
    (table : list SavedModel) : list SavedModel :=
  match c with
  | Create now new_id commit data =>
      snd (create_model now new_id commit data current_user table)
  | List skip limit => snd (list_models skip limit current_user table)
  | Get model_id => snd (get_model model_id current_user table)
  | Update now commit model_id data =>
      snd (update_model now commit model_id data current_user table)
  | Delete commit model_id => snd (delete_model commit model_id current_user table)
  end.

Definition after_model_calls (current_user : Database.User) (calls : list model_call)
    (table : list SavedModel) : list SavedModel :=
  fold_left (fun t c => after_model_call current_user c t) calls table.

(** The models of the user with the given id, in the order of the table. *)
Definition models_of (uid : string) (table : list SavedModel) : list SavedModel :=
  List.filter (fun m => String.eqb (user_id m) uid) table.

(** No two rows share an id (the primary key), and an id is not in use. *)
Definition unique_ids (table : list SavedModel) : Prop :=
  List.NoDup (map id table).

Definition fresh_id (new_id : string) (table : list SavedModel) : Prop :=
  Forall (fun m => id m <> new_id) table.

End ModelSpec.

(** ** Sample inputs

    Concrete users, requests and collaborators on which the properties
    below are evaluated. *)

Module Sample.

(** A hashing context for the samples: the hash of [p] is [p] behind a
    [$2b$] marker, and a stored value without the marker cannot be
    identified (passlib raises on it). *)
Definition marker : string := "$2b$".

Definition sample_context : CryptContext :=
  {| verify := fun plain hashed =>
       if startswith hashed marker
       then Returned (String.eqb hashed (marker +:+ plain))
       else Raised (ValueError "hash could not be identified");
     hash := fun plain => marker +:+ plain |}.

Definition u1 : Database.User :=
  {| Database.id := "u1";
     Database.email := "u1@example.com";
     Database.username := "u1";
     Database.hashed_password := marker +:+ "P@ssw0rd1";
     Database.is_active := true;
     Database.is_verified := true;
     Database.last_login := None;
     Database.last_login_ip := None |}.

Definition users : list Database.User := [u1].

(** A request that arrives directly from [host]. *)
Definition request_from (host path query : string) : Http.Request :=
  {| Http.headers := [];
     Http.client := Some host;
     Http.method := "GET";
     Http.url_path := path;
     Http.url_query := query |}.

(** Clock readings: one second, one minute. *)
Definition second : Z := 1000000.
Definition minute : Z := 60 * second.

(** [u1] with the account deactivated. *)
Definition deactivated : Database.User :=
  {| Database.id := "u1";
     Database.email := "u1@example.com";
     Database.username := "u1";
     Database.hashed_password := marker +:+ "P@ssw0rd1";
     Database.is_active := false;
     Database.is_verified := true;
     Database.last_login := None;
     Database.last_login_ip := None |}.

(** The login request of [u1], from 1.2.3.4. *)
Definition login_request : Http.Request := request_from "1.2.3.4" "/auth/login" "".

(** [u1] as [authenticate_user] returns it after a login at [now]. *)
Definition u1_logged_in (now : Z) : Database.User :=
  {| Database.id := "u1";
     Database.email := "u1@example.com";
     Database.username := "u1";
     Database.hashed_password := marker +:+ "P@ssw0rd1";
     Database.is_active := true;
     Database.is_verified := true;
     Database.last_login := Some now;
     Database.last_login_ip := Some "1.2.3.4" |}.

(** A password that meets the length and character-class rules and has
    three line feeds in a row. *)
Definition password_with_line_feeds : string :=
  "Xy1!" +:+ PolicySpec.three_line_feeds +:+ "zq".

(** A detector that has blocked 6.6.6.6 and seen no request yet, and a
    request from that address for a path outside the served tree. *)
Definition detector_with_blocked : Monitoring.ThreatDetector :=
  {| Monitoring.failed_attempts := ∅;
     Monitoring.request_patterns := ∅;
     Monitoring.suspicious_ips := ∅;
     Monitoring.blocked_ips := {["6.6.6.6"]} |}.

Definition traversal_request : Http.Request :=
  request_from "6.6.6.6" "/static/../../etc/passwd" "".

(** Sixty requests from 9.9.9.9 at the same clock reading, and one more. *)
Definition ping : Http.Request := request_from "9.9.9.9" "/ping" "".
Definition burst : list (Z * Http.Request) := repeat (0, ping) 60.

(** Sinks whose world is the list of lines written so far.  [write] adds a
    line; [lose] is a handler on a full disk: the line is lost and the call
    returns. *)
Definition write (line : string) (w : list string) : list string := w ++ [line].
Definition lose (line : string) (w : list string) : list string := w.

Definition working_logger : Monitoring.Logger (list string) :=
  {| Monitoring.info := write; Monitoring.error := write |}.
Definition logger_on_full_disk : Monitoring.Logger (list string) :=
  {| Monitoring.info := lose; Monitoring.error := lose |}.

(** A session whose [add] raises. *)
Definition broken_session : Monitoring.Session (list string) :=
  {| Monitoring.add := fun _ => raise (OtherError "database is locked") |}.

(** The rejection of a locked account. *)
Definition account_locked : exn :=
  HTTPException 423
    "Account temporarily locked due to too many failed attempts. Try again in 30 minutes.".

(** A request that carries the given headers. *)
Definition request_with_headers (headers : list (string * string)) : Http.Request :=
  {| Http.headers := headers;
     Http.client := Some "10.0.0.9";
     Http.method := "GET";
     Http.url_path := "/";
     Http.url_query := "" |}.

(** Five failed logins of 1.2.3.4 within a minute. *)
Definition five_failed_logins : list DetectorSpec.detector_call :=
  map (fun t => DetectorSpec.RecordFailedLogin t "1.2.3.4" None) [0; 1; 2; 3; 4].

(** Sixty-one requests of 9.9.9.9 at one clock reading. *)
Definition sixty_one_pings : list DetectorSpec.detector_call :=
  repeat (DetectorSpec.Analyze 0 ping None) 61.

(** Two saved models, one of [u1] and one of another user, a new one and
    a change of name. *)
Definition models : list Models.SavedModel :=
  [ {| Models.id := "m1"; Models.user_id := "u1"; Models.name := "mnist";
       Models.description := None; Models.model_data := "{}";
       Models.updated_at := 0 |};
    {| Models.id := "m2"; Models.user_id := "u2"; Models.name := "private";
       Models.description := None; Models.model_data := "{}";
       Models.updated_at := 0 |} ].

Definition new_model : Models.ModelCreate.t :=
  {| Models.ModelCreate.name := "cifar";
     Models.ModelCreate.description := Some "a second model";
     Models.ModelCreate.model_data := "{}" |}.

Definition renaming : Models.ModelUpdate.t :=
  {| Models.ModelUpdate.name := Some "mine";
     Models.ModelUpdate.description := None;
     Models.ModelUpdate.model_data := None |}.

End Sample.

(** * Properties *)

(** ** Login attempt tracker *)

Module TrackerProps.

Import Auth Spec.

Lemma attempt_key_inj i j : get_attempt_key i = get_attempt_key j -> i = j.
Proof. unfold get_attempt_key. apply (inj (String.append _)). Qed.

Lemma lockout_key_inj i j : get_lockout_key i = get_lockout_key j -> i = j.
Proof. unfold get_lockout_key. apply (inj (String.append _)). Qed.

(** One failed attempt: the count goes up by one; the call reports a
    lockout exactly when the new count has reached the maximum, and then
    writes the expiry [now + 30 minutes] whatever was there before. *)
Lemma record_failed_attempt_effect now i ip uid st :
  let n := failure_count i st + 1 in
  fst (record_failed_attempt now i ip uid st) = (MAX_LOGIN_ATTEMPTS <=? n) /\
  failure_count i (snd (record_failed_attempt now i ip uid st)) = n /\
  lockout_expiry i (snd (record_failed_attempt now i ip uid st)) =
    (if MAX_LOGIN_ATTEMPTS <=? n then Some (now + lockout_duration)
     else lockout_expiry i st).
Proof.
  unfold record_failed_attempt, failure_count, lockout_expiry, lockout_duration.
  destruct (attempts (login_tracker st) !! get_attempt_key i) as [r|] eqn:E; cbn [count];
    match goal with |- context [MAX_LOGIN_ATTEMPTS <=? ?n] =>
      destruct (MAX_LOGIN_ATTEMPTS <=? n) eqn:L end;
    cbn; rewrite ?lookup_insert_eq; auto.
Qed.

Lemma fst_record_failures_cons now rest i ip uid st :
  fst (record_failures (now :: rest) i ip uid st) =
  fst (record_failed_attempt now i ip uid st)
    :: fst (record_failures rest i ip uid (snd (record_failed_attempt now i ip uid st))).
Proof.
  cbn [record_failures].
  destruct (record_failed_attempt now i ip uid st) as [b st1]; cbn [fst snd].
  destruct (record_failures rest i ip uid st1); reflexivity.
Qed.

Lemma snd_record_failures_cons now rest i ip uid st :
  snd (record_failures (now :: rest) i ip uid st) =
  snd (record_failures rest i ip uid (snd (record_failed_attempt now i ip uid st))).
Proof.
  cbn [record_failures].
  destruct (record_failed_attempt now i ip uid st) as [b st1]; cbn [fst snd].
  destruct (record_failures rest i ip uid st1); reflexivity.
Qed.

Lemma fst_record_failures_nil i ip uid st : fst (record_failures [] i ip uid st) = [].
Proof. reflexivity. Qed.

Lemma snd_record_failures_nil i ip uid st : snd (record_failures [] i ip uid st) = st.
Proof. reflexivity. Qed.

Lemma clean_count i st : Clean i st -> failure_count i st = 0.
Proof. intros [Ha _]. unfold failure_count. now rewrite Ha. Qed.

(** While the clock is before the expiry, [is_locked_out] answers [True]
    and changes nothing. *)
Lemma is_locked_out_before now i st expiry :
  lockout_expiry i st = Some expiry -> now < expiry ->
  is_locked_out now i st = (true, st).
Proof.
  unfold lockout_expiry, is_locked_out. intros -> H.
  apply Z.ltb_lt in H. now rewrite H.
Qed.

(** The two cases of [record_failed_attempt_effect], with the count before
    the call known to be [n]. *)
Lemma failed_attempt_below now i ip uid st n m :
  failure_count i st = n -> m = n + 1 -> m < MAX_LOGIN_ATTEMPTS ->
  fst (record_failed_attempt now i ip uid st) = false /\
  failure_count i (snd (record_failed_attempt now i ip uid st)) = m.
Proof.
  intros Hn -> Hm.
  destruct (record_failed_attempt_effect now i ip uid st) as (R & C & _).
  rewrite Hn in R, C. split; [| exact C].
  rewrite R. apply Z.leb_gt. exact Hm.
Qed.

Lemma failed_attempt_reaching now i ip uid st n m :
  failure_count i st = n -> m = n + 1 -> MAX_LOGIN_ATTEMPTS <= m ->
  fst (record_failed_attempt now i ip uid st) = true /\
  failure_count i (snd (record_failed_attempt now i ip uid st)) = m /\
  lockout_expiry i (snd (record_failed_attempt now i ip uid st))
    = Some (now + lockout_duration).
Proof.
  intros Hn -> Hm.
  destruct (record_failed_attempt_effect now i ip uid st) as (R & C & E).
  rewrite Hn in R, C, E.
  apply Z.leb_le in Hm. rewrite Hm in R, E. auto.
Qed.

(** C4, as the code has it.  For an identifier with nothing held, five
    failed attempts at any clock readings: the first four report no
    lockout, the fifth reports the lockout and sets the expiry 30 minutes
    after it, and [is_locked_out] answers [True] until then.  A sixth
    failed attempt reports the lockout again and sets the expiry anew, 30
    minutes after the sixth attempt: the expiry follows the last failure. *)
Theorem fifth_failure_locks_sixth_renews_expiry
    (i : string) (ip uid : option string) (st : state) (t1 t2 t3 t4 t5 t6 : Z) :
  Clean i st ->
  let r5 := record_failures [t1; t2; t3; t4; t5] i ip uid st in
  let r6 := record_failed_attempt t6 i ip uid (snd r5) in
  fst r5 = [false; false; false; false; true] /\
  lockout_expiry i (snd r5) = Some (t5 + lockout_duration) /\
  (forall now, now < t5 + lockout_duration ->
     fst (is_locked_out now i (snd r5)) = true) /\
  fst r6 = true /\
  lockout_expiry i (snd r6) = Some (t6 + lockout_duration) /\
  (forall now, now < t6 + lockout_duration ->
     fst (is_locked_out now i (snd r6)) = true).
Proof.
  intros HC r5 r6. subst r6 r5.
  apply clean_count in HC.
  rewrite !fst_record_failures_cons, !snd_record_failures_cons,
    fst_record_failures_nil, snd_record_failures_nil.
  destruct (failed_attempt_below t1 i ip uid st 0 1 HC eq_refl eq_refl) as [R1 C1].
  destruct (failed_attempt_below t2 i ip uid _ 1 2 C1 eq_refl eq_refl) as [R2 C2].
  destruct (failed_attempt_below t3 i ip uid _ 2 3 C2 eq_refl eq_refl) as [R3 C3].
  destruct (failed_attempt_below t4 i ip uid _ 3 4 C3 eq_refl eq_refl) as [R4 C4].
  destruct (failed_attempt_reaching t5 i ip uid _ 4 5 C4 eq_refl (Z.le_refl _))
    as (R5 & C5 & E5).
  destruct (failed_attempt_reaching t6 i ip uid _ 5 6 C5 eq_refl ltac:(discriminate))
    as (R6 & C6 & E6).
  rewrite R1, R2, R3, R4, R5, R6.
  repeat split; auto.
  - intros now H. now rewrite (is_locked_out_before now i _ _ E5 H).
  - intros now H. now rewrite (is_locked_out_before now i _ _ E6 H).
Qed.

(** An instance: ["user:u1"] from the initial state, five failures in the
    first microseconds and a sixth at minute 5. *)
Lemma fifth_failure_locks_sixth_renews_expiry_witness :
  Clean "user:u1" initial /\
  lockout_expiry "user:u1"
    (snd (record_failed_attempt (5 * Sample.minute) "user:u1" None (Some "u1")
            (snd (record_failures [0; 1; 2; 3; 4] "user:u1" None (Some "u1") initial))))
  = Some (5 * Sample.minute + lockout_duration).
Proof.
  split.
  - split; reflexivity.
  - apply (fifth_failure_locks_sixth_renews_expiry "user:u1" None (Some "u1")
             initial 0 1 2 3 4 (5 * Sample.minute)).
    split; reflexivity.
Defined.

(** C4 as stated fails: five failed attempts in the first second lock
    ["1.2.3.4"] until minute 30; a sixth failed attempt one minute later,
    well before that expiry, moves the expiry to minute 31. *)
Lemma sixth_failure_moves_expiry :
  let st5 := snd (record_failures [0; 0; 0; 0; 0] "1.2.3.4" (Some "1.2.3.4") None initial) in
  let st6 := snd (record_failed_attempt Sample.minute "1.2.3.4" (Some "1.2.3.4") None st5) in
  Clean "1.2.3.4" initial /\
  lockout_expiry "1.2.3.4" st5 = Some (30 * Sample.minute) /\
  Sample.minute < 30 * Sample.minute /\
  lockout_expiry "1.2.3.4" st6 = Some (31 * Sample.minute).
Proof. vm_compute. repeat split; reflexivity. Qed.

(** *** Leaving the locked state *)

(** What each call leaves of the lockout entry of [i]. *)
Lemma is_locked_out_expiry now j i st :
  lockout_expiry i (snd (is_locked_out now j st)) =
  match lockout_expiry j st with
  | Some e => if (now <? e) || negb (bool_decide (i = j)) then lockout_expiry i st else None
  | None => lockout_expiry i st
  end.
Proof.
  unfold is_locked_out, lockout_expiry.
  destruct (lockouts (login_tracker st) !! get_lockout_key j) as [e|] eqn:E; [| reflexivity].
  destruct (now <? e); [reflexivity |].
  cbn. case_bool_decide as Hij; cbn.
  - subst. apply lookup_delete_eq.
  - apply lookup_delete_ne. intros H. apply lockout_key_inj in H. congruence.
Qed.

Lemma record_failed_attempt_locked now j ip uid i st :
  Locked i st -> Locked i (snd (record_failed_attempt now j ip uid st)).
Proof.
  unfold Locked, lockout_expiry, record_failed_attempt.
  intros H.
  match goal with |- context [MAX_LOGIN_ATTEMPTS <=? ?n] =>
    destruct (MAX_LOGIN_ATTEMPTS <=? n) end; cbn; [| exact H].
  destruct (decide (get_lockout_key j = get_lockout_key i)) as [->|Hne].
  - rewrite lookup_insert_eq. eauto.
  - rewrite lookup_insert_ne by exact Hne. exact H.
Qed.

Lemma record_successful_attempt_expiry j ip uid i st :
  lockout_expiry i (record_successful_attempt j ip uid st) =
  if bool_decide (i = j) then None else lockout_expiry i st.
Proof.
  unfold record_successful_attempt, lockout_expiry. cbn.
  case_bool_decide as Hij.
  - subst. apply lookup_delete_eq.
  - apply lookup_delete_ne. intros H. apply lockout_key_inj in H. congruence.
Qed.

Lemma record_successful_attempt_clean i ip uid st :
  Clean i (record_successful_attempt i ip uid st).
Proof.
  unfold Clean, record_successful_attempt. cbn.
  split; apply lookup_delete_eq.
Qed.

Lemma clean_not_locked i st : Clean i st -> Locked i st -> False.
Proof.
  unfold Clean, Locked, lockout_expiry. intros [_ H] [e He]. congruence.
Qed.

(** Once the clock has reached the expiry, [is_locked_out] answers [False]
    and deletes the lockout entry and the attempt record together. *)
Lemma is_locked_out_expired now i st expiry :
  lockout_expiry i st = Some expiry -> expiry <= now ->
  fst (is_locked_out now i st) = false /\
  Clean i (snd (is_locked_out now i st)) /\
  failure_count i (snd (is_locked_out now i st)) = 0.
Proof.
  unfold lockout_expiry, is_locked_out, Clean, failure_count. intros -> H.
  apply Z.ltb_ge in H. rewrite H. cbn.
  rewrite !lookup_delete_eq. auto.
Qed.

(** C5, as the code has it.  From the locked state of an identifier, a call
    on the tracker leaves the identifier clean only if it is [is_locked_out]
    for that identifier at or after the expiry, or
    [record_successful_attempt] for it.  The first purges the lockout entry
    and the attempt record together and the count is zero again; the second
    cleans whatever the state.  [record_failed_attempt] makes no expiry
    check: whenever it is called, before or after the expiry, the identifier
    stays locked. *)
Theorem locked_leaves_only_by_expiry_check_or_success
    (i : string) (st : state) (expiry : Z) :
  lockout_expiry i st = Some expiry ->
  (forall now c, Clean i (after_call now c st) ->
     (c = IsLockedOut i /\ expiry <= now) \/
     (exists ip uid, c = RecordSuccess i ip uid)) /\
  (forall now, expiry <= now ->
     fst (is_locked_out now i st) = false /\
     Clean i (snd (is_locked_out now i st)) /\
     failure_count i (snd (is_locked_out now i st)) = 0) /\
  (forall now j ip uid, Locked i (snd (record_failed_attempt now j ip uid st))) /\
  (forall st' ip uid, Clean i (record_successful_attempt i ip uid st')).
Proof.
  intros HE.
  assert (HL : Locked i st) by (unfold Locked; rewrite HE; eauto).
  split; [| split; [| split]].
  - intros now c HC.
    destruct c as [j | j ip uid | j ip uid]; cbn [after_call] in HC.
    + destruct HC as [_ HC]. fold (lockout_expiry i (snd (is_locked_out now j st))) in HC.
      rewrite is_locked_out_expiry in HC.
      destruct (lockout_expiry j st) as [e|] eqn:Ej; [| congruence].
      destruct (now <? e) eqn:Hlt; cbn [orb] in HC; [congruence |].
      case_bool_decide as Hij; cbn [negb] in HC; [| congruence].
      subst j. left. split; [reflexivity |].
      apply Z.ltb_ge in Hlt. congruence.
    + exfalso. eapply clean_not_locked; [exact HC |].
      now apply record_failed_attempt_locked.
    + destruct HC as [_ HC].
      fold (lockout_expiry i (record_successful_attempt j ip uid st)) in HC.
      rewrite record_successful_attempt_expiry in HC.
      case_bool_decide as Hij; [| congruence].
      subst j. right. eauto.
  - intros now H. now apply (is_locked_out_expired now i st expiry).
  - intros now j ip uid. now apply record_failed_attempt_locked.
  - intros st' ip uid. apply record_successful_attempt_clean.
Qed.

(** An instance: ["user:u1"] locked until minute 30, and [is_locked_out]
    called at minute 30. *)
Lemma locked_leaves_only_by_expiry_check_or_success_witness :
  let st5 := snd (record_failures [0; 0; 0; 0; 0] "user:u1" None (Some "u1") initial) in
  lockout_expiry "user:u1" st5 = Some (30 * Sample.minute) /\
  Clean "user:u1" (snd (is_locked_out (30 * Sample.minute) "user:u1" st5)).
Proof.
  intros st5.
  assert (H : lockout_expiry "user:u1" st5 = Some (30 * Sample.minute))
    by (vm_compute; reflexivity).
  split; [exact H |].
  destruct (locked_leaves_only_by_expiry_check_or_success "user:u1" st5 _ H)
    as (_ & Hexpired & _).
  exact (proj1 (proj2 (Hexpired _ (Z.le_refl _)))).
Defined.

(** C5 as stated fails for [record_failed_attempt]: ["user:u1"] is locked
    until minute 30; a failed attempt at minute 31, past the expiry, makes
    no expiry check.  The count goes on to 6 and the identifier is locked
    again, until minute 61. *)
Lemma failure_after_expiry_locks_again :
  let st5 := snd (record_failures [0; 0; 0; 0; 0] "user:u1" None (Some "u1") initial) in
  let r := record_failed_attempt (31 * Sample.minute) "user:u1" None (Some "u1") st5 in
  lockout_expiry "user:u1" st5 = Some (30 * Sample.minute) /\
  30 * Sample.minute < 31 * Sample.minute /\
  fst r = true /\
  failure_count "user:u1" (snd r) = 6 /\
  lockout_expiry "user:u1" (snd r) = Some (61 * Sample.minute).
Proof. vm_compute. repeat split; reflexivity. Qed.

End TrackerProps.

(** ** Authentication *)

Module AuthProps.

Import Auth Spec.

(** [authenticate_user] never reads the lockout of the ["user:<id>"]
    identifier.  Whatever is held for it, an active user whose address is
    not locked out and whose password verifies is returned, and the call
    clears what was held for the user. *)
Lemma authenticate_user_ignores_user_lockout
    (pwd_context : CryptContext) (now : Z) (db : list Database.User)
    (email password : string) (request : option Http.Request)
    (st : state) (user : Database.User) :
  let client_ip := match request with Some r => get_client_ip r | None => "unknown" end in
  fst (is_locked_out now client_ip st) = false ->
  Database.query_first (fun u => String.eqb (Database.email u) email) db = Some user ->
  Database.is_active user = true ->
  verify pwd_context password (Database.hashed_password user) = Returned true ->
  exists u st',
    authenticate_user pwd_context now db email password request st = (Returned (Some u), st') /\
    Database.id u = Database.id user /\
    Clean ("user:" +:+ Database.id user) st'.
Proof.
  intros client_ip Hip Hq Ha Hv.
  unfold authenticate_user. fold client_ip.
  unfold bind at 1. unfold call at 1.
  destruct (is_locked_out now client_ip st) as [b st1] eqn:E.
  cbn [fst] in Hip. subst b. rewrite Hq, Ha. cbn [negb].
  unfold bind at 1. unfold verify_password, try_except. rewrite Hv. cbn [negb].
  unfold bind, effect, ret.
  eexists _, _. split; [reflexivity |]. split; [reflexivity |].
  apply TrackerProps.record_successful_attempt_clean.
Qed.

(** C1 on the code.  [u1] fails with a wrong password once a minute and
    is told [False] four times; the fifth failure, at minute 4, locks
    ["user:u1"] until minute 34 and is answered with 423.  At minute 5 the
    correct password is accepted: the user is returned and the lockout is
    gone. *)
Lemma locked_user_is_authenticated_with_correct_password :
  let r5 := authenticate_in_turn Sample.sample_context Sample.users
              (Some Sample.login_request)
              [(0, "u1@example.com", "wrong");
               (Sample.minute, "u1@example.com", "wrong");
               (2 * Sample.minute, "u1@example.com", "wrong");
               (3 * Sample.minute, "u1@example.com", "wrong");
               (4 * Sample.minute, "u1@example.com", "wrong")]
              initial in
  let r6 := authenticate_user Sample.sample_context (5 * Sample.minute) Sample.users
              "u1@example.com" "P@ssw0rd1" (Some Sample.login_request) (snd r5) in
  fst r5 = [Returned None; Returned None; Returned None; Returned None;
            Raised Sample.account_locked] /\
  lockout_expiry "user:u1" (snd r5) = Some (34 * Sample.minute) /\
  5 * Sample.minute < 34 * Sample.minute /\
  fst r6 = Returned (Some (Sample.u1_logged_in (5 * Sample.minute))) /\
  lockout_expiry "user:u1" (snd r6) = None.
Proof. vm_compute. repeat split; reflexivity. Qed.

(** *** The per-address lockout *)

Lemma fst_authenticate_in_turn_cons ctx db request now email password rest st :
  fst (authenticate_in_turn ctx db request ((now, email, password) :: rest) st) =
  fst (authenticate_user ctx now db email password request st)
    :: fst (authenticate_in_turn ctx db request rest
              (snd (authenticate_user ctx now db email password request st))).
Proof.
  cbn [authenticate_in_turn].
  destruct (authenticate_user ctx now db email password request st) as [r st1].
  cbn [fst snd].
  destruct (authenticate_in_turn ctx db request rest st1); reflexivity.
Qed.

Lemma snd_authenticate_in_turn_cons ctx db request now email password rest st :
  snd (authenticate_in_turn ctx db request ((now, email, password) :: rest) st) =
  snd (authenticate_in_turn ctx db request rest
         (snd (authenticate_user ctx now db email password request st))).
Proof.
  cbn [authenticate_in_turn].
  destruct (authenticate_user ctx now db email password request st) as [r st1].
  cbn [fst snd].
  destruct (authenticate_in_turn ctx db request rest st1); reflexivity.
Qed.





(** *** [verify_password] *)

(** C10.  Whatever the hashing context does with the two strings,
    [verify_password] returns a boolean and does not raise: the boolean of
    the context when it returns one, [False] when it raises. *)
Theorem verify_password_returns_bool
    (pwd_context : CryptContext) (plain_password hashed_password : string) (st : state) :
  exists (b : bool) (st' : state),
    verify_password pwd_context plain_password hashed_password st = (Returned b, st') /\
    match verify pwd_context plain_password hashed_password with
    | Returned v => b = v /\ st' = st
    | Raised e =>
        b = false /\
        st' = log_security_event "PASSWORD_VERIFICATION_ERROR" None None
                (Text (str_of_exn e)) st
    end.
Proof.
  unfold verify_password, try_except.
  destruct (verify pwd_context plain_password hashed_password) as [v | e].
  - exists v, st. auto.
  - eexists false, _. cbn. auto.
Qed.

End AuthProps.

(** ** Tokens *)

Module TokenProps.

Import Auth.

Lemma str_in_algorithm : str_in ALGORITHM [ALGORITHM] = true.
Proof. reflexivity. Qed.

(** What [jwt.encode] leaves of the claims other than [exp]. *)
Lemma encode_payload_lookup claims key alg k :
  k <> "exp" ->
  exists payload,
    Jose.encode claims key alg = Jose.Signed payload key alg /\
    payload !! k = claims !! k.
Proof.
  intros Hk. unfold Jose.encode.
  destruct (claims !! "exp") as [[x | z | t] |]; eexists; split; try reflexivity.
  now rewrite lookup_insert_ne.
Qed.

(** A refresh token carries [type = "refresh"]. *)
Lemma refresh_token_type environ now data :
  exists payload,
    create_refresh_token environ now data
      = Jose.Signed payload (SECRET_KEY environ) ALGORITHM /\
    payload !! "type" = Some (Jose.CStr "refresh").
Proof.
  unfold create_refresh_token.
  destruct (encode_payload_lookup
              (<["type" := Jose.CStr "refresh"]>
                 (<["exp" := Jose.CDatetime (now + timedelta_days REFRESH_TOKEN_EXPIRE_DAYS)]> data))
              (SECRET_KEY environ) ALGORITHM "type") as (p & -> & Hp); [discriminate |].
  exists p. split; [reflexivity |]. now rewrite Hp, lookup_insert_eq.
Qed.

(** The half of C2 that the code keeps: [get_current_user] refuses every
    refresh token, at any time and whatever the users are. *)
Lemma get_current_user_rejects_refresh_token environ now issued data db st :
  fst (get_current_user environ now (create_refresh_token environ issued data) db st)
  = Raised credentials_exception.
Proof.
  destruct (refresh_token_type environ issued data) as (p & -> & Hty).
  unfold get_current_user, bind, try_except, Jose.decode.
  rewrite str_in_algorithm, String.eqb_refl. cbn [negb].
  destruct (p !! "exp") as [[x | z | t] |]; try reflexivity.
  - destruct (z <? Jose.seconds now); [reflexivity |].
    rewrite Hty. destruct (p !! "sub"); reflexivity.
  - rewrite Hty. destruct (p !! "sub"); reflexivity.
Qed.

(** The other half, which the code does not keep: [refresh_token] never
    reads the [type] claim.  Any token that decodes and names a user is
    answered with a new pair of tokens. *)
Lemma refresh_token_ignores_type environ now payload db st uid user :
  payload !! "sub" = Some (Jose.CStr uid) ->
  truthy uid = true ->
  (forall z, payload !! "exp" = Some (Jose.CInt z) -> Jose.seconds now <= z) ->
  (forall c, payload !! "exp" = Some c -> exists z, c = Jose.CInt z) ->
  Database.query_first (id_is (Jose.CStr uid)) db = Some user ->
  Main.refresh_token environ now
    (Jose.Signed payload (SECRET_KEY environ) ALGORITHM) db st
  = (Returned (Main.issue_tokens environ now user), st).
Proof.
  intros Hsub Huid Hexp Hint Hq.
  unfold Main.refresh_token, try_except, bind, Jose.decode.
  rewrite str_in_algorithm, String.eqb_refl. cbn [negb].
  destruct (payload !! "exp") as [c|] eqn:E.
  - destruct (Hint c eq_refl) as [z ->].
    specialize (Hexp z eq_refl). apply Z.ltb_ge in Hexp. rewrite Hexp.
    rewrite Hsub. cbn [Main.falsy]. rewrite Huid. cbn [negb]. now rewrite Hq.
  - rewrite Hsub. cbn [Main.falsy]. rewrite Huid. cbn [negb]. now rewrite Hq.
Qed.

(** C2 on the code.  The access token issued to [u1] at time 0, presented
    to [POST /auth/refresh] one minute later, is answered with a new access
    token and a new refresh token; the refresh token issued with it is
    refused by [get_current_user]. *)
Lemma refresh_accepts_access_token :
  let issued := Main.issue_tokens ∅ 0 Sample.u1 in
  fst (Main.refresh_token ∅ Sample.minute (Main.Schemas.access_token issued)
         Sample.users initial)
    = Returned (Main.issue_tokens ∅ Sample.minute Sample.u1) /\
  fst (get_current_user ∅ Sample.minute (Main.Schemas.refresh_token issued)
         Sample.users initial)
    = Raised credentials_exception /\
  fst (get_current_user ∅ Sample.minute (Main.Schemas.access_token issued)
         Sample.users initial)
    = Returned Sample.u1.
Proof. vm_compute. repeat split; reflexivity. Qed.

(** *** The signing secret *)

(** Without [SECRET_KEY] in the environment the signing secret is the
    literal of the source.  Tokens are signed with it, and a token that
    anyone signs with that literal is accepted as an access token of the
    user it names. *)
Lemma unset_secret_key_is_the_default (environ : gmap string string) :
  environ !! "SECRET_KEY" = None ->
  SECRET_KEY environ = "your-secret-key-change-this-in-production" /\
  (forall now data delta, exists payload,
     create_access_token environ now data delta
       = Jose.Signed payload "your-secret-key-change-this-in-production" "HS256") /\
  (forall now uid db user st,
     Database.query_first (id_is (Jose.CStr uid)) db = Some user ->
     get_current_user environ now
       (Jose.Signed {[ "sub" := Jose.CStr uid; "type" := Jose.CStr "access" ]}
          "your-secret-key-change-this-in-production" "HS256") db st
     = (Returned user, st)).
Proof.
  intros Hunset.
  assert (Hkey : SECRET_KEY environ = "your-secret-key-change-this-in-production").
  { unfold SECRET_KEY, getenv. now rewrite Hunset. }
  split; [exact Hkey |]. split.
  - intros now data delta. unfold create_access_token. rewrite Hkey.
    unfold Jose.encode. eexists. reflexivity.
  - intros now uid db user st Hq.
    unfold get_current_user, bind, try_except, Jose.decode. rewrite Hkey.
    change (str_in "HS256" [ALGORITHM]) with true.
    rewrite String.eqb_refl. cbn [negb].
    rewrite (lookup_insert_ne _ "sub" "exp") by discriminate.
    rewrite (lookup_singleton_ne "type" "exp") by discriminate.
    rewrite lookup_insert_eq.
    rewrite (lookup_insert_ne _ "sub" "type") by discriminate.
    rewrite lookup_singleton_eq.
    unfold ret. now rewrite Hq.
Qed.

(** C7 on the code.  With an empty environment the secret that signs and
    verifies is the default written in the source, and a token forged with
    that text for [u1] is accepted. *)
Lemma empty_environment_uses_published_secret :
  (∅ : gmap string string) !! "SECRET_KEY" = None /\
  SECRET_KEY ∅ = DEFAULT_SECRET_KEY /\
  fst (get_current_user ∅ 0
         (Jose.Signed {[ "sub" := Jose.CStr "u1"; "type" := Jose.CStr "access" ]}
            "your-secret-key-change-this-in-production" "HS256")
         Sample.users initial)
    = Returned Sample.u1.
Proof. vm_compute. repeat split; reflexivity. Qed.

End TokenProps.

(** ** Threat detector *)

Module DetectorProps.

Import Monitoring DetectorSpec.

(** *** Requests from a blocked address *)

(** C3, as the code has it.  For a request from a blocked address,
    [analyze_request] puts the [UNAUTHORIZED_ACCESS] event of severity
    [HIGH] first and then goes on as for any other address: the clock
    reading is appended to the address's window, the rate check and the
    pattern checks run, and their events follow the first one. *)
Theorem blocked_request_is_flagged_then_analyzed
    (now : Z) (request : Http.Request) (user_id : option string) (self : ThreatDetector) :
  _get_client_ip request ∈ blocked_ips self ->
  let ip := _get_client_ip request in
  let r := analyze_request now request user_id self in
  let r' := analyze_request now request user_id (unblocked ip self) in
  event_type (blocked_event now ip) = UNAUTHORIZED_ACCESS /\
  severity (blocked_event now ip) = HIGH /\
  fst r = blocked_event now ip :: fst r' /\
  (exists rate_events,
     fst r = blocked_event now ip
               :: rate_events ++ _check_malicious_patterns now request user_id ip) /\
  request_patterns (snd r) !! ip
    = Some (deque_append 100 now (default [] (request_patterns self !! ip))) /\
  request_patterns (snd r) = request_patterns (snd r') /\
  suspicious_ips (snd r) = suspicious_ips (snd r') /\
  blocked_ips (snd r) = blocked_ips self.
Proof.
  intros Hblocked ip r r'. subst r r'. fold ip in Hblocked.
  unfold analyze_request. fold ip. cbn [unblocked blocked_ips request_patterns
    suspicious_ips failed_attempts fst snd].
  destruct (decide (ip ∈ blocked_ips self)) as [_ | Hn]; [| contradiction].
  destruct (decide (ip ∈ blocked_ips self ∖ {[ip]})) as [Hin | _].
  { apply elem_of_difference in Hin. destruct Hin as [_ Hin].
    exfalso. apply Hin. now apply elem_of_singleton. }
  split; [reflexivity |]. split; [reflexivity |].
  match goal with |- context [max_requests_per_minute <? ?n] =>
    destruct (max_requests_per_minute <? n) end; cbn [app].
  - split; [reflexivity |]. split; [eexists [_]; reflexivity |].
    split; [apply lookup_insert_eq |]. auto.
  - split; [reflexivity |]. split; [exists []; reflexivity |].
    split; [apply lookup_insert_eq |]. auto.
Qed.

(** An instance: the request from the blocked 6.6.6.6 at time 0. *)
Lemma blocked_request_is_flagged_then_analyzed_witness :
  "6.6.6.6" ∈ Monitoring.blocked_ips Sample.detector_with_blocked /\
  request_patterns
    (snd (analyze_request 0 Sample.traversal_request None Sample.detector_with_blocked))
    !! "6.6.6.6" = Some [0].
Proof.
  assert (H : _get_client_ip Sample.traversal_request
                ∈ blocked_ips Sample.detector_with_blocked)
    by (apply (bool_decide_unpack _); vm_compute; exact I).
  split; [exact H |].
  pose proof (blocked_request_is_flagged_then_analyzed
                0 Sample.traversal_request None Sample.detector_with_blocked H)
    as (_ & _ & _ & _ & Hwindow & _).
  exact Hwindow.
Defined.

(** C3 as stated fails: for the request from the blocked 6.6.6.6 the
    detector returns two events, the second from the pattern check, and the
    window of the address, empty before, holds the clock reading. *)
Lemma blocked_request_is_still_processed :
  let r := analyze_request 0 Sample.traversal_request None Sample.detector_with_blocked in
  bool_decide ("6.6.6.6" ∈ blocked_ips Sample.detector_with_blocked) = true /\
  map event_type (fst r) = [UNAUTHORIZED_ACCESS; SUSPICIOUS_ACTIVITY] /\
  map description (fst r)
    = [Some "Request from blocked IP address";
       Some "Malicious pattern detected: (\.\./){2,}"] /\
  request_patterns Sample.detector_with_blocked !! "6.6.6.6" = None /\
  request_patterns (snd r) !! "6.6.6.6" = Some [0].
Proof. vm_compute. repeat split; reflexivity. Qed.

(** *** Failed logins and the blocked set *)

Lemma filter_keeps_all {A} (f : A -> bool) (l : list A) :
  (forall x, In x l -> f x = true) -> List.filter f l = l.
Proof.
  induction l as [| a l IH]; intros H; [reflexivity |].
  cbn [List.filter]. rewrite (H a (or_introl eq_refl)).
  f_equal. apply IH. intros x Hx. apply H. now right.
Qed.

(** One failed login, when the entries held are [pre ++ ts] and those of
    [ts] lie within 30 minutes before [now]: they all stay, [now] is added,
    and the address is blocked exactly when five or more entries are held. *)
Lemma record_failed_login_step now ip uid self pre ts ts' :
  held ip self = pre ++ ts ->
  (forall t, In t ts -> now - timedelta_minutes 30 < t) ->
  ts' = ts ++ [now] ->
  held ip (snd (record_failed_login now ip uid self)) = pruned now pre ++ ts' /\
  fst (record_failed_login now ip uid self)
    = (max_failed_attempts <=? Z.of_nat (length (pruned now pre ++ ts'))) /\
  (fst (record_failed_login now ip uid self) = true ->
   ip ∈ blocked_ips (snd (record_failed_login now ip uid self))).
Proof.
  intros Hheld Hts ->.
  unfold held in *. unfold record_failed_login. rewrite Hheld.
  assert (Hkept : List.filter (fun attempt => now - timedelta_minutes 30 <? attempt)
                    ((pre ++ ts) ++ [now]) = pruned now pre ++ ts ++ [now]).
  { rewrite <- app_assoc, List.filter_app. unfold pruned. f_equal.
    apply filter_keeps_all. intros x Hx. apply Z.ltb_lt.
    apply in_app_or in Hx. destruct Hx as [Hx | [<- | []]].
    - now apply Hts.
    - unfold timedelta_minutes. lia. }
  rewrite Hkept.
  destruct (max_failed_attempts <=? Z.of_nat (length (pruned now pre ++ ts ++ [now])));
    cbn [fst snd failed_attempts blocked_ips]; rewrite lookup_insert_eq; cbn [default];
    (split; [reflexivity |]); (split; [reflexivity |]).
  - intros _. apply elem_of_union_l. now apply elem_of_singleton.
  - discriminate.
Qed.

Lemma fst_record_failed_logins_cons now rest ip uid self :
  fst (record_failed_logins (now :: rest) ip uid self) =
  fst (record_failed_login now ip uid self)
    :: fst (record_failed_logins rest ip uid (snd (record_failed_login now ip uid self))).
Proof.
  cbn [record_failed_logins].
  destruct (record_failed_login now ip uid self) as [b d1]; cbn [fst snd].
  destruct (record_failed_logins rest ip uid d1); reflexivity.
Qed.

Lemma snd_record_failed_logins_cons now rest ip uid self :
  snd (record_failed_logins (now :: rest) ip uid self) =
  snd (record_failed_logins rest ip uid (snd (record_failed_login now ip uid self))).
Proof.
  cbn [record_failed_logins].
  destruct (record_failed_login now ip uid self) as [b d1]; cbn [fst snd].
  destruct (record_failed_logins rest ip uid d1); reflexivity.
Qed.

Lemma fst_record_failed_logins_nil ip uid self :
  fst (record_failed_logins [] ip uid self) = [].
Proof. reflexivity. Qed.

Lemma snd_record_failed_logins_nil ip uid self :
  snd (record_failed_logins [] ip uid self) = self.
Proof. reflexivity. Qed.

(** No operation of the detector takes an address out of the blocked set. *)
Lemma blocked_ips_grow_call (self : ThreatDetector) (c : detector_call) :
  blocked_ips self ⊆ blocked_ips (after_detector_call self c).
Proof.
  destruct c as [now request uid | now ip uid]; cbn [after_detector_call].
  - unfold analyze_request. cbn [snd blocked_ips]. reflexivity.
  - unfold record_failed_login.
    match goal with |- context [max_failed_attempts <=? ?n] =>
      destruct (max_failed_attempts <=? n) end; cbn [snd blocked_ips].
    + apply union_subseteq_r.
    + reflexivity.
Qed.

Lemma blocked_ips_grow (calls : list detector_call) (self : ThreatDetector) :
  blocked_ips self ⊆ blocked_ips (after_detector_calls calls self).
Proof.
  unfold after_detector_calls.
  revert self. induction calls as [| c calls IH]; intros self; cbn [fold_left].
  - reflexivity.
  - etransitivity; [apply (blocked_ips_grow_call self c) | apply IH].
Qed.

Lemma pruned_nil now : pruned now [] = [].
Proof. reflexivity. Qed.

Lemma five_or_more_held (pre : list Z) (t1 t2 t3 t4 t5 : Z) :
  (max_failed_attempts <=? Z.of_nat (length (pre ++ [t1; t2; t3; t4; t5]))) = true.
Proof.
  apply Z.leb_le. rewrite length_app. cbn [length]. unfold max_failed_attempts. lia.
Qed.

(** Discharges "the entries of [ts] lie within 30 minutes before [now]"
    from the window hypothesis [Hwin]. *)
Ltac in_window Hwin :=
  let t := fresh "t" in
  let Ht := fresh "Ht" in
  let H := fresh "H" in
  intros t Ht;
  match goal with
  | |- ?later - _ < _ =>
      assert (H : later - t < timedelta_minutes 30)
        by (apply Hwin; cbn [In] in *; intuition auto);
      clear - H; lia
  end.

(** C8.  Five failed logins for one address at clock readings less than 30
    minutes apart, whatever the detector held before: the fifth call returns
    [True] and the address is in the blocked set; when nothing was held for
    the address the first four calls return [False].  The address then
    stays blocked through any further operations of the detector, as does
    every address once it is in the blocked set. *)
Theorem five_failed_logins_block_for_good
    (ip : string) (uid : option string) (self : ThreatDetector) (t1 t2 t3 t4 t5 : Z) :
  within_minutes 30 [t1; t2; t3; t4; t5] ->
  let r := record_failed_logins [t1; t2; t3; t4; t5] ip uid self in
  nth 4 (fst r) false = true /\
  ip ∈ blocked_ips (snd r) /\
  (held ip self = [] -> fst r = [false; false; false; false; true]) /\
  (forall calls, ip ∈ blocked_ips (after_detector_calls calls (snd r))) /\
  (forall (d : ThreatDetector) (calls : list detector_call) (x : string),
     x ∈ blocked_ips d -> x ∈ blocked_ips (after_detector_calls calls d)).
Proof.
  intros Hwin r. subst r.
  rewrite !fst_record_failed_logins_cons, !snd_record_failed_logins_cons,
    fst_record_failed_logins_nil, snd_record_failed_logins_nil.
  assert (H0 : held ip self = held ip self ++ []) by (now rewrite app_nil_r).
  destruct (record_failed_login_step t1 ip uid self _ [] [t1] H0
              ltac:(intros ? []) eq_refl) as (K1 & R1 & _).
  destruct (record_failed_login_step t2 ip uid _ _ [t1] [t1; t2] K1
              ltac:(in_window Hwin) eq_refl) as (K2 & R2 & _).
  destruct (record_failed_login_step t3 ip uid _ _ [t1; t2] [t1; t2; t3] K2
              ltac:(in_window Hwin) eq_refl) as (K3 & R3 & _).
  destruct (record_failed_login_step t4 ip uid _ _ [t1; t2; t3] [t1; t2; t3; t4] K3
              ltac:(in_window Hwin) eq_refl) as (K4 & R4 & _).
  destruct (record_failed_login_step t5 ip uid _ _ [t1; t2; t3; t4] [t1; t2; t3; t4; t5] K4
              ltac:(in_window Hwin) eq_refl) as (K5 & R5 & B5).
  rewrite five_or_more_held in R5.
  specialize (B5 R5).
  rewrite R1, R2, R3, R4, R5.
  split; [reflexivity |]. split; [exact B5 |]. split; [| split].
  - intros Hfresh. rewrite Hfresh, !pruned_nil. reflexivity.
  - intros calls. now apply (blocked_ips_grow calls).
  - intros d calls x Hx. now apply (blocked_ips_grow calls d).
Qed.

(** An instance: five failed logins of 1.2.3.4 within 29 minutes on a new
    detector. *)
Lemma five_failed_logins_block_for_good_witness :
  within_minutes 30 [0; 1; 2; 3; 29 * Sample.minute] /\
  fst (record_failed_logins [0; 1; 2; 3; 29 * Sample.minute] "1.2.3.4" None new_detector)
    = [false; false; false; false; true].
Proof.
  assert (H : within_minutes 30 [0; 1; 2; 3; 29 * Sample.minute]).
  { intros t t' Ht Ht'. cbn [In] in Ht, Ht'.
    assert (0 <= t /\ t' <= 29 * Sample.minute).
    { unfold Sample.minute, Sample.second in *. intuition (subst; lia). }
    unfold timedelta_minutes, Sample.minute, Sample.second in *. lia. }
  split; [exact H |].
  pose proof (five_failed_logins_block_for_good "1.2.3.4" None new_detector
                0 1 2 3 (29 * Sample.minute) H) as (_ & _ & Hfresh & _).
  exact (Hfresh eq_refl).
Defined.

End DetectorProps.

(** ** Request rate *)

Module RateProps.

Import Monitoring DetectorSpec.

Lemma malicious_events_type now request uid ip e :
  In e (_check_malicious_patterns now request uid ip) ->
  event_type e = SUSPICIOUS_ACTIVITY.
Proof.
  unfold _check_malicious_patterns. intros H.
  apply in_flat_map in H. destruct H as (p & _ & H).
  destruct (re_search (compiled p) _); [| destruct H].
  destruct H as [<- | []]. reflexivity.
Qed.

(** One request when the window of its address holds [seen], fewer than
    100 readings, all less than a minute old: the reading is added, nothing
    leaves the window, and the rate event is raised exactly when the window
    then holds more than 60 readings. *)
Lemma analyze_request_step now request uid self seen :
  window (_get_client_ip request) self = seen ->
  (length seen < 100)%nat ->
  (forall t, In t seen -> now - timedelta_minutes 1 < t) ->
  let ip := _get_client_ip request in
  let n := S (length seen) in
  analyze_request now request uid self =
  ((if decide (ip ∈ blocked_ips self) then [blocked_event now ip] else [])
     ++ (if max_requests_per_minute <? Z.of_nat n then [rate_event now ip uid n] else [])
     ++ _check_malicious_patterns now request uid ip,
   {| failed_attempts := failed_attempts self;
      request_patterns := <[ip := seen ++ [now]]> (request_patterns self);
      suspicious_ips :=
        (if max_requests_per_minute <? Z.of_nat n
         then {[ip]} ∪ suspicious_ips self else suspicious_ips self);
      blocked_ips := blocked_ips self |}).
Proof.
  intros Hseen Hlen Hrecent ip n. subst n.
  unfold window in Hseen. fold ip in Hseen.
  unfold analyze_request. fold ip. rewrite Hseen.
  assert (Happ : deque_append 100 now seen = seen ++ [now]).
  { unfold deque_append.
    replace (100 <? length (seen ++ [now]))%nat with false; [reflexivity |].
    symmetry. apply Nat.ltb_ge. rewrite length_app. cbn [length]. lia. }
  rewrite Happ.
  assert (Hall : List.filter (fun req_time => now - timedelta_minutes 1 <? req_time)
                   (seen ++ [now]) = seen ++ [now]).
  { apply DetectorProps.filter_keeps_all. intros x Hx. apply Z.ltb_lt.
    apply in_app_or in Hx. destruct Hx as [Hx | [<- | []]].
    - now apply Hrecent.
    - unfold timedelta_minutes. lia. }
  rewrite Hall.
  replace (length (seen ++ [now])) with (S (length seen))
    by (rewrite length_app; cbn [length]; lia).
  destruct (decide (ip ∈ blocked_ips self)),
    (max_requests_per_minute <? Z.of_nat (S (length seen))); reflexivity.
Qed.

Lemma analyze_requests_cons now request rest uid self :
  analyze_requests ((now, request) :: rest) uid self =
  (fst (analyze_request now request uid self)
     :: fst (analyze_requests rest uid (snd (analyze_request now request uid self))),
   snd (analyze_requests rest uid (snd (analyze_request now request uid self)))).
Proof.
  cbn [analyze_requests].
  destruct (analyze_request now request uid self) as [events d1]; cbn [fst snd].
  destruct (analyze_requests rest uid d1); reflexivity.
Qed.

(** Arrivals from one address, all less than a minute apart, that bring
    its window to at most 60 readings: every reading is in the window
    afterwards and no call raises the rate event. *)
Lemma analyze_requests_below ip uid arrivals :
  forall (seen : list Z) (self : ThreatDetector),
    window ip self = seen ->
    from_address ip arrivals ->
    within_minutes 1 (seen ++ map fst arrivals) ->
    (length seen + length arrivals <= 60)%nat ->
    window ip (snd (analyze_requests arrivals uid self)) = seen ++ map fst arrivals /\
    suspicious_ips (snd (analyze_requests arrivals uid self)) = suspicious_ips self /\
    Forall no_rate_event (fst (analyze_requests arrivals uid self)).
Proof.
  induction arrivals as [| [now request] rest IH]; intros seen self Hseen Hfrom Hwin Hlen.
  - cbn [analyze_requests map fst snd]. rewrite app_nil_r. auto.
  - apply Forall_cons_iff in Hfrom. destruct Hfrom as [Hip Hfrom]. cbn [snd] in Hip.
    cbn [length map fst] in *.
    rewrite analyze_requests_cons. cbn [fst snd].
    assert (Hrecent : forall t, In t seen -> now - timedelta_minutes 1 < t).
    { intros t Ht.
      assert (now - t < timedelta_minutes 1); [| lia].
      apply Hwin; apply in_or_app; [left | right; left]; auto. }
    pose proof (analyze_request_step now request uid self seen) as Hstep.
    rewrite Hip in Hstep. specialize (Hstep Hseen ltac:(lia) Hrecent). cbv zeta in Hstep.
    replace (max_requests_per_minute <? Z.of_nat (S (length seen))) with false in Hstep
      by (symmetry; apply Z.ltb_ge; unfold max_requests_per_minute; lia).
    rewrite Hstep. cbn [fst snd].
    destruct (IH (seen ++ [now])
                {| failed_attempts := failed_attempts self;
                   request_patterns := <[ip := seen ++ [now]]> (request_patterns self);
                   suspicious_ips := suspicious_ips self;
                   blocked_ips := blocked_ips self |}) as (IHw & IHs & IHe).
    + unfold window. cbn [request_patterns]. now rewrite lookup_insert_eq.
    + exact Hfrom.
    + now rewrite <- app_assoc.
    + rewrite length_app. cbn [length]. lia.
    + rewrite IHw, <- app_assoc. split; [reflexivity |]. split; [exact IHs |].
      constructor; [| exact IHe].
      unfold no_rate_event. apply List.Forall_forall. intros e He.
      apply in_app_or in He. destruct He as [He | He].
      * destruct (decide (ip ∈ blocked_ips self)); [| destruct He].
        destruct He as [<- | []]. discriminate.
      * cbn [app] in He. apply malicious_events_type in He. rewrite He. discriminate.
Qed.

(** The rate limit as the specification tests it.  Sixty-one requests from
    one address with an empty window, all less than a minute apart: none of
    the first sixty calls raises the rate event; the sixty-first returns the
    [RATE_LIMIT_EXCEEDED] event of severity [MEDIUM], counting 61 requests,
    and the address is marked suspicious. *)
Theorem sixty_first_request_exceeds_rate
    (ip : string) (uid : option string) (self : ThreatDetector)
    (first : list (Z * Http.Request)) (now : Z) (request : Http.Request) :
  window ip self = [] ->
  length first = 60%nat ->
  from_address ip (first ++ [(now, request)]) ->
  within_minutes 1 (map fst (first ++ [(now, request)])) ->
  let before := analyze_requests first uid self in
  let last := analyze_request now request uid (snd before) in
  Forall no_rate_event (fst before) /\
  In (rate_event now ip uid 61) (fst last) /\
  event_type (rate_event now ip uid 61) = RATE_LIMIT_EXCEEDED /\
  severity (rate_event now ip uid 61) = MEDIUM /\
  ip ∈ suspicious_ips (snd last).
Proof.
  intros Hempty Hlen Hfrom Hwin before last. subst before last.
  unfold from_address in Hfrom. apply Forall_app in Hfrom.
  destruct Hfrom as [Hfirst Hlast].
  apply Forall_cons_iff in Hlast. destruct Hlast as [Hip _]. cbn [snd] in Hip.
  rewrite map_app in Hwin. cbn [map fst] in Hwin.
  destruct (analyze_requests_below ip uid first [] self Hempty Hfirst)
    as (Hw & _ & He).
  { intros t t' Ht Ht'. apply Hwin; apply in_or_app; left; assumption. }
  { cbn [length]. lia. }
  split; [exact He |].
  cbn [app] in Hw.
  pose proof (analyze_request_step now request uid
                (snd (analyze_requests first uid self)) (map fst first)) as Hstep.
  rewrite Hip in Hstep.
  specialize (Hstep Hw).
  rewrite length_map, Hlen in Hstep.
  specialize (Hstep ltac:(lia)).
  assert (Hrecent : forall t, In t (map fst first) -> now - timedelta_minutes 1 < t).
  { intros t Ht.
    assert (now - t < timedelta_minutes 1); [| lia].
    apply Hwin; apply in_or_app; [left | right; left]; auto. }
  specialize (Hstep Hrecent). cbv zeta in Hstep.
  change (max_requests_per_minute <? Z.of_nat 61) with true in Hstep.
  rewrite Hstep. cbn [fst snd suspicious_ips].
  split; [| split; [reflexivity | split; [reflexivity |]]].
  - apply in_or_app. right. apply in_or_app. left. now left.
  - apply elem_of_union_l. now apply elem_of_singleton.
Qed.

(** An instance: sixty-one requests of 9.9.9.9 at one clock reading, on a
    new detector. *)
Lemma sixty_first_request_exceeds_rate_witness :
  window "9.9.9.9" new_detector = [] /\
  length Sample.burst = 60%nat /\
  "9.9.9.9" ∈ suspicious_ips
    (snd (analyze_request 0 Sample.ping None
            (snd (analyze_requests Sample.burst None new_detector)))).
Proof.
  assert (Hfrom : from_address "9.9.9.9" (Sample.burst ++ [(0, Sample.ping)])).
  { apply Forall_app. split.
    - apply List.Forall_forall. intros a Ha. apply repeat_spec in Ha. now subst a.
    - now constructor. }
  assert (Hzero : forall x, In x (map fst (Sample.burst ++ [(0, Sample.ping)])) -> x = 0).
  { intros x Hx. apply in_map_iff in Hx. destruct Hx as ([y r] & <- & Hin).
    apply in_app_or in Hin. destruct Hin as [Hin | [Hin | []]].
    - apply repeat_spec in Hin. now inversion Hin.
    - now inversion Hin. }
  assert (Hwin : within_minutes 1 (map fst (Sample.burst ++ [(0, Sample.ping)]))).
  { intros t t' Ht Ht'. rewrite (Hzero t Ht), (Hzero t' Ht'). reflexivity. }
  split; [reflexivity |]. split; [reflexivity |].
  exact (proj2 (proj2 (proj2 (proj2
           (sixty_first_request_exceeds_rate "9.9.9.9" None new_detector
              Sample.burst 0 Sample.ping eq_refl eq_refl Hfrom Hwin))))).
Defined.

End RateProps.

(** ** Security event log *)

Module SinkProps.

Import Monitoring SinkSpec.


(** Instances: a session that raises, with a logger that writes and with
    one whose handler sits on a full disk. *)
Lemma log_security_event_with_broken_session :
  log_security_event (list string) Sample.working_logger
    (blocked_event 0 "6.6.6.6") (Some Sample.broken_session) []
  = (Returned tt,
     ["UNAUTHORIZED_ACCESS | User: None | IP: 6.6.6.6 | Severity: HIGH | Description: Request from blocked IP address";
      "Failed to log security event: database is locked"]) /\
  log_security_event (list string) Sample.logger_on_full_disk
    (blocked_event 0 "6.6.6.6") (Some Sample.broken_session) []
  = (Returned tt, []).
Proof. vm_compute. split; reflexivity. Qed.

End SinkProps.

(** ** Regular expressions *)

Module RegexProps.
















End RegexProps.

(** ** Password policy *)

Module PasswordProps.

Import Auth PolicySpec.





(** C6 on the code.  The password has three identical characters in a row
    (line feeds) and the validator accepts it without a message; the rules
    of the specification reject it. *)
Lemma three_line_feeds_pass_validation :
  has_triple Sample.password_with_line_feeds = true /\
  satisfies NoRepeat Sample.password_with_line_feeds = false /\
  validate_password_strength Sample.password_with_line_feeds = (true, []) /\
  validate_password_strength "Xy1!aaazq"
    = (false, ["Password cannot contain three consecutive identical characters"]).
Proof. vm_compute. repeat split; reflexivity. Qed.

(** The validator on a few passwords. *)
Lemma policy_examples :
  validate_password_strength "P@ssw0rd1" = (true, []) /\
  validate_password_strength "Xy1!aaazq"
    = (false, ["Password cannot contain three consecutive identical characters"]) /\
  validate_password_strength "password"
    = (false, ["Password must contain at least one uppercase letter";
               "Password must contain at least one number";
               "Password must contain at least one special character";
               "Password is too common and not allowed"]) /\
  validate_password_strength ""
    = (false, ["Password must be at least 8 characters long";
               "Password must contain at least one uppercase letter";
               "Password must contain at least one lowercase letter";
               "Password must contain at least one number";
               "Password must contain at least one special character"]).
Proof. vm_compute. repeat split; reflexivity. Qed.

End PasswordProps.

(** ** More on the login attempt tracker *)

Module TrackerFrameProps.

Import Auth Spec TrackerSpec.

Lemma is_locked_out_count now j i st :
  failure_count i (snd (is_locked_out now j st)) =
  match lockout_expiry j st with
  | Some e => if (now <? e) || negb (bool_decide (i = j)) then failure_count i st else 0
  | None => failure_count i st
  end.
Proof.
  unfold is_locked_out, lockout_expiry, failure_count.
  destruct (lockouts (login_tracker st) !! get_lockout_key j) as [e|]; [| reflexivity].
  destruct (now <? e); [reflexivity |].
  cbn. case_bool_decide as Hij; cbn.
  - subst. now rewrite lookup_delete_eq.
  - rewrite lookup_delete_ne; [reflexivity |].
    intros H. apply TrackerProps.attempt_key_inj in H. congruence.
Qed.

Lemma record_failed_attempt_other now j ip uid i st :
  i <> j ->
  failure_count i (snd (record_failed_attempt now j ip uid st)) = failure_count i st /\
  lockout_expiry i (snd (record_failed_attempt now j ip uid st)) = lockout_expiry i st.
Proof.
  intros Hij.
  assert (Ha : get_attempt_key j <> get_attempt_key i)
    by (intros H; apply TrackerProps.attempt_key_inj in H; congruence).
  assert (Hl : get_lockout_key j <> get_lockout_key i)
    by (intros H; apply TrackerProps.lockout_key_inj in H; congruence).
  unfold record_failed_attempt, failure_count, lockout_expiry.
  match goal with |- context [MAX_LOGIN_ATTEMPTS <=? ?n] =>
    destruct (MAX_LOGIN_ATTEMPTS <=? n) end; cbn;
    rewrite ?(lookup_insert_ne _ _ _ _ Ha), ?(lookup_insert_ne _ _ _ _ Hl); auto.
Qed.

Lemma record_successful_attempt_count j ip uid i st :
  failure_count i (record_successful_attempt j ip uid st) =
  if bool_decide (i = j) then 0 else failure_count i st.
Proof.
  unfold record_successful_attempt, failure_count. cbn.
  case_bool_decide as Hij.
  - subst. now rewrite lookup_delete_eq.
  - rewrite lookup_delete_ne; [reflexivity |].
    intros H. apply TrackerProps.attempt_key_inj in H. congruence.
Qed.

(** A call about another identifier. *)
Lemma after_call_other i now c st :
  call_identifier c <> i ->
  failure_count i (after_call now c st) = failure_count i st /\
  lockout_expiry i (after_call now c st) = lockout_expiry i st.
Proof.
  intros Hne.
  destruct c as [j | j ip uid | j ip uid]; cbn [after_call call_identifier] in *.
  - rewrite is_locked_out_count, TrackerProps.is_locked_out_expiry.
    destruct (lockout_expiry j st) as [e|]; [| auto].
    rewrite (bool_decide_eq_false_2 (i = j)) by congruence.
    cbn [negb]. rewrite orb_true_r. auto.
  - apply record_failed_attempt_other. congruence.
  - rewrite record_successful_attempt_count,
      TrackerProps.record_successful_attempt_expiry.
    rewrite (bool_decide_eq_false_2 (i = j)) by congruence. auto.
Qed.

(** Identifiers are tracked independently: whatever calls are made about
    other identifiers, at whatever times, the count and the lockout of an
    identifier stay as they were. *)
Theorem tracker_calls_leave_other_identifiers
    (i : string) (calls : list (Z * tracker_call)) (st : state) :
  Forall (fun c => call_identifier (snd c) <> i) calls ->
  failure_count i (after_calls calls st) = failure_count i st /\
  lockout_expiry i (after_calls calls st) = lockout_expiry i st.
Proof.
  unfold after_calls. revert st.
  induction calls as [| [now c] calls IH]; intros st Hall; cbn [fold_left fst snd].
  - auto.
  - apply List.Forall_cons_iff in Hall. destruct Hall as [Hc Hall].
    destruct (IH (after_call now c st) Hall) as [C E].
    destruct (after_call_other i now c st Hc) as [C0 E0].
    rewrite C, E, C0, E0. auto.
Qed.

(** An instance: five failures of the address 1.2.3.4, which lock it, leave
    ["user:u1"] without a count and without a lockout. *)
Lemma tracker_calls_leave_other_identifiers_witness :
  lockout_expiry "1.2.3.4"
    (after_calls
       (map (fun t => (t, RecordFailure "1.2.3.4" (Some "1.2.3.4") None)) [0; 1; 2; 3; 4])
       initial) = Some (4 + timedelta_minutes 30) /\
  failure_count "user:u1"
    (after_calls
       (map (fun t => (t, RecordFailure "1.2.3.4" (Some "1.2.3.4") None)) [0; 1; 2; 3; 4])
       initial) = 0 /\
  lockout_expiry "user:u1"
    (after_calls
       (map (fun t => (t, RecordFailure "1.2.3.4" (Some "1.2.3.4") None)) [0; 1; 2; 3; 4])
       initial) = None.
Proof.
  split; [vm_compute; reflexivity |].
  apply (tracker_calls_leave_other_identifiers "user:u1"
           (map (fun t => (t, RecordFailure "1.2.3.4" (Some "1.2.3.4") None))
              [0; 1; 2; 3; 4]) initial).
  repeat constructor; discriminate.
Defined.

(** One call keeps the lockouts backed. *)
Lemma lockouts_backed_call now c st :
  lockouts_backed st -> lockouts_backed (after_call now c st).
Proof.
  intros Hinv i e He.
  destruct (decide (call_identifier c = i)) as [<- | Hne].
  - destruct c as [j | j ip uid | j ip uid]; cbn [after_call call_identifier] in *.
    + rewrite TrackerProps.is_locked_out_expiry in He.
      rewrite is_locked_out_count.
      destruct (lockout_expiry j st) as [e0|] eqn:Ej; [| congruence].
      rewrite (bool_decide_eq_true_2 (j = j)) in * by reflexivity.
      cbn [negb] in *. rewrite orb_false_r in *.
      destruct (now <? e0); [| discriminate]. now apply (Hinv j e0).
    + destruct (TrackerProps.record_failed_attempt_effect now j ip uid st) as (_ & C & E).
      rewrite C. rewrite E in He.
      destruct (MAX_LOGIN_ATTEMPTS <=? failure_count j st + 1) eqn:L.
      * now apply Z.leb_le.
      * specialize (Hinv j e He). lia.
    + rewrite TrackerProps.record_successful_attempt_expiry in He.
      rewrite (bool_decide_eq_true_2 (j = j)) in He by reflexivity. discriminate.
  - destruct (after_call_other i now c st Hne) as [C E].
    rewrite C. rewrite E in He. now apply (Hinv i e).
Qed.

(** The invariant of the tracker: in every state that the three operations
    reach from a new tracker, whenever a lockout is held for an identifier
    its failure count is at least [MAX_LOGIN_ATTEMPTS]. *)
Theorem reachable_lockouts_are_backed (calls : list (Z * tracker_call)) :
  lockouts_backed (after_calls calls initial).
Proof.
  unfold after_calls.
  assert (H0 : lockouts_backed initial) by (intros i e He; discriminate He).
  revert H0. generalize initial.
  induction calls as [| [now c] calls IH]; intros st Hst; cbn [fold_left fst snd].
  - exact Hst.
  - apply IH. now apply lockouts_backed_call.
Qed.

(** A success wipes the slate: after [record_successful_attempt], whatever
    was held for the identifier, the next four failures do not lock and the
    fifth does. *)
Theorem success_then_five_failures_to_lock
    (i : string) (ip uid ip' uid' : option string) (st : state) (t1 t2 t3 t4 t5 : Z) :
  fst (record_failures [t1; t2; t3; t4; t5] i ip uid
         (record_successful_attempt i ip' uid' st))
  = [false; false; false; false; true].
Proof.
  pose proof (TrackerProps.clean_count i _
                (TrackerProps.record_successful_attempt_clean i ip' uid' st)) as C0.
  rewrite !TrackerProps.fst_record_failures_cons, TrackerProps.fst_record_failures_nil.
  destruct (TrackerProps.failed_attempt_below t1 i ip uid _ 0 1 C0 eq_refl eq_refl) as [R1 C1].
  destruct (TrackerProps.failed_attempt_below t2 i ip uid _ 1 2 C1 eq_refl eq_refl) as [R2 C2].
  destruct (TrackerProps.failed_attempt_below t3 i ip uid _ 2 3 C2 eq_refl eq_refl) as [R3 C3].
  destruct (TrackerProps.failed_attempt_below t4 i ip uid _ 3 4 C3 eq_refl eq_refl) as [R4 C4].
  destruct (TrackerProps.failed_attempt_reaching t5 i ip uid _ 4 5 C4 eq_refl (Z.le_refl _))
    as (R5 & _ & _).
  now rewrite R1, R2, R3, R4, R5.
Qed.

End TrackerFrameProps.

(** ** More on [authenticate_user] *)

Module AuthFlowProps.

Import Auth Spec SessionSpec.

(** Splits on the result of the [record_failed_attempt] call in the goal
    and closes the cases in which the answer is not a user. *)
Ltac destruct_failed_attempt :=
  match goal with
  | |- context [record_failed_attempt ?a ?b ?c ?d ?e] =>
      destruct (record_failed_attempt a b c d e) as [[|] ?];
      let H := fresh "H" in intros H; discriminate H
  end.

(** The one path of [authenticate_user] that returns a user. *)
Lemma authenticate_user_returned
    (ctx : CryptContext) (now : Z) (db : list Database.User) (email password : string)
    (request : option Http.Request) (st st' : state) (u : Database.User) :
  authenticate_user ctx now db email password request st = (Returned (Some u), st') ->
  exists user,
    Database.query_first (fun x => String.eqb (Database.email x) email) db = Some user /\
    Database.is_active user = true /\
    verify ctx password (Database.hashed_password user) = Returned true /\
    fst (is_locked_out now (client_ip_of request) st) = false /\
    u = logged_in now (client_ip_of request) user /\
    Clean ("user:" +:+ Database.id user) st'.
Proof.
  unfold authenticate_user. fold (client_ip_of request).
  unfold bind at 1. unfold call at 1.
  destruct (is_locked_out now (client_ip_of request) st) as [[|] s1] eqn:Elock;
    [intros H; discriminate H |].
  destruct (Database.query_first _ db) as [user |] eqn:Equery.
  - destruct (Database.is_active user) eqn:Eactive; cbn [negb];
      [| intros H; discriminate H].
    unfold bind at 1. unfold verify_password, try_except.
    destruct (verify ctx password (Database.hashed_password user)) as [[|] | e] eqn:Ev.
    + cbn [negb]. unfold bind, effect, ret. intros H.
      injection H as Hu Hst. subst u st'.
      exists user. cbn.
      repeat (split; [first [reflexivity | assumption
                            | unfold logged_in; rewrite Eactive; reflexivity] |]).
      apply TrackerProps.record_successful_attempt_clean.
    + cbn [negb]. unfold bind, call. destruct_failed_attempt.
    + unfold Exception, bind, effect, ret, call. cbn beta iota delta [negb].
      destruct_failed_attempt.
  - unfold bind, call, effect, ret. destruct_failed_attempt.
Qed.

(** [authenticate_user] returns a user only on this path: the address is
    not locked out, the email names a user, the user is active and the
    hashing context has verified the password against the stored hash.  The
    user returned is that row with the login time and address set and every
    other column as it was, and nothing is held against the user
    afterwards. *)
Theorem authenticate_user_returns_only_verified_users
    (ctx : CryptContext) (now : Z) (db : list Database.User) (email password : string)
    (request : option Http.Request) (st st' : state) (u : Database.User) :
  authenticate_user ctx now db email password request st = (Returned (Some u), st') ->
  exists user,
    Database.query_first (fun x => String.eqb (Database.email x) email) db = Some user /\
    Database.is_active user = true /\
    verify ctx password (Database.hashed_password user) = Returned true /\
    fst (is_locked_out now (client_ip_of request) st) = false /\
    u = logged_in now (client_ip_of request) user /\
    Clean ("user:" +:+ Database.id user) st'.
Proof. apply authenticate_user_returned. Qed.

(** An instance: [u1] logs in with the right password. *)
Lemma authenticate_user_returns_only_verified_users_witness :
  fst (authenticate_user Sample.sample_context 0 Sample.users "u1@example.com"
         "P@ssw0rd1" (Some Sample.login_request) initial)
    = Returned (Some (Sample.u1_logged_in 0)) /\
  verify Sample.sample_context "P@ssw0rd1" (Database.hashed_password Sample.u1)
  = Returned true.
Proof.
  split; [vm_compute; reflexivity |].
  assert (H : authenticate_user Sample.sample_context 0 Sample.users "u1@example.com"
                "P@ssw0rd1" (Some Sample.login_request) initial
              = (Returned (Some (Sample.u1_logged_in 0)),
                 snd (authenticate_user Sample.sample_context 0 Sample.users
                        "u1@example.com" "P@ssw0rd1" (Some Sample.login_request) initial)))
    by (vm_compute; reflexivity).
  destruct (authenticate_user_returns_only_verified_users _ _ _ _ _ _ _ _ _ H)
    as (user & Hq & _ & Hv & _).
  injection Hq as <-. exact Hv.
Defined.

(** The tracker after [verify_password] is the tracker before it, and the
    answer is [False] unless the context returned [True]. *)
Lemma verify_password_not_true ctx password hashed st :
  verify ctx password hashed <> Returned true ->
  fst (verify_password ctx password hashed st) = Returned false /\
  login_tracker (snd (verify_password ctx password hashed st)) = login_tracker st.
Proof.
  intros Hv. unfold verify_password, try_except.
  destruct (verify ctx password hashed) as [[|] | e]; [congruence | auto | auto].
Qed.

Lemma failure_count_tracker i st st' :
  login_tracker st' = login_tracker st -> failure_count i st' = failure_count i st.
Proof. unfold failure_count. now intros ->. Qed.

Lemma lockout_expiry_tracker i st st' :
  login_tracker st' = login_tracker st -> lockout_expiry i st' = lockout_expiry i st.
Proof. unfold lockout_expiry. now intros ->. Qed.

(** A wrong password for an active user, from an address that is not
    locked out: one failure is recorded against ["user:<id>"]; the answer is
    [False] below the maximum and 423 when the maximum is reached. *)
Lemma authenticate_wrong_password ctx now db email password request st user :
  Database.query_first (fun x => String.eqb (Database.email x) email) db = Some user ->
  Database.is_active user = true ->
  verify ctx password (Database.hashed_password user) <> Returned true ->
  lockout_expiry (client_ip_of request) st = None ->
  client_ip_of request <> "user:" +:+ Database.id user ->
  let uid := "user:" +:+ Database.id user in
  let r := authenticate_user ctx now db email password request st in
  fst r = (if MAX_LOGIN_ATTEMPTS <=? failure_count uid st + 1
           then Raised Sample.account_locked else Returned None) /\
  failure_count uid (snd r) = failure_count uid st + 1 /\
  lockout_expiry uid (snd r)
    = (if MAX_LOGIN_ATTEMPTS <=? failure_count uid st + 1
       then Some (now + lockout_duration) else lockout_expiry uid st) /\
  lockout_expiry (client_ip_of request) (snd r) = None.
Proof.
  intros Hq Ha Hv Hfree Hne uid r. subst r.
  destruct (verify_password_not_true ctx password (Database.hashed_password user) st Hv)
    as [Vr Vs].
  set (sv := snd (verify_password ctx password (Database.hashed_password user) st)) in *.
  assert (Heq : authenticate_user ctx now db email password request st
                = (if fst (record_failed_attempt now uid (Some (client_ip_of request))
                             (Some (Database.id user)) sv)
                   then Raised Sample.account_locked else Returned None,
                   snd (record_failed_attempt now uid (Some (client_ip_of request))
                          (Some (Database.id user)) sv))).
  { unfold authenticate_user. fold (client_ip_of request). unfold uid.
    unfold bind at 1. unfold call at 1.
    unfold is_locked_out. unfold lockout_expiry in Hfree. rewrite Hfree.
    rewrite Hq, Ha. cbn [negb].
    unfold bind at 1. subst sv.
    destruct (verify_password ctx password (Database.hashed_password user) st)
      as [o s1]. cbn [fst snd] in *. subst o. cbn [negb].
    unfold bind, call, ret, raise.
    destruct (record_failed_attempt now ("user:" +:+ Database.id user)
                (Some (client_ip_of request)) (Some (Database.id user)) s1)
      as [[|] s2]; reflexivity. }
  rewrite Heq. cbn [fst snd].
  destruct (TrackerProps.record_failed_attempt_effect now uid
              (Some (client_ip_of request)) (Some (Database.id user)) sv) as (R & C & E).
  rewrite (failure_count_tracker uid st sv Vs) in R, C, E.
  rewrite (lockout_expiry_tracker uid st sv Vs) in E.
  rewrite R. repeat split; auto.
  destruct (TrackerFrameProps.record_failed_attempt_other now uid
              (Some (client_ip_of request)) (Some (Database.id user))
              (client_ip_of request) sv Hne) as [_ E'].
  rewrite E'. now rewrite (lockout_expiry_tracker _ st sv Vs).
Qed.

(** Five wrong passwords for an active user with nothing held against the
    user, from an address that is not locked out: the first four are
    answered [False], the fifth with 423, and ["user:<id>"] is then locked
    for 30 minutes from the fifth attempt. *)
Theorem five_wrong_passwords_lock_the_user
    (ctx : CryptContext) (db : list Database.User) (request : option Http.Request)
    (st : state) (user : Database.User) (email : string)
    (t1 t2 t3 t4 t5 : Z) (p1 p2 p3 p4 p5 : string) :
  Database.query_first (fun x => String.eqb (Database.email x) email) db = Some user ->
  Database.is_active user = true ->
  (forall p, In p [p1; p2; p3; p4; p5] ->
     verify ctx p (Database.hashed_password user) <> Returned true) ->
  lockout_expiry (client_ip_of request) st = None ->
  client_ip_of request <> "user:" +:+ Database.id user ->
  Clean ("user:" +:+ Database.id user) st ->
  let r := authenticate_in_turn ctx db request
             [(t1, email, p1); (t2, email, p2); (t3, email, p3); (t4, email, p4);
              (t5, email, p5)] st in
  fst r = [Returned None; Returned None; Returned None; Returned None;
           Raised Sample.account_locked] /\
  lockout_expiry ("user:" +:+ Database.id user) (snd r) = Some (t5 + lockout_duration).
Proof.
  intros Hq Ha Hv Hfree Hne HC r. subst r.
  apply TrackerProps.clean_count in HC.
  rewrite !AuthProps.fst_authenticate_in_turn_cons, !AuthProps.snd_authenticate_in_turn_cons.
  change (fst (authenticate_in_turn ctx db request [] ?s))
    with (@nil (outcome (option Database.User))).
  change (snd (authenticate_in_turn ctx db request [] ?s)) with s.
  destruct (authenticate_wrong_password ctx t1 db email p1 request st user Hq Ha
              (Hv p1 ltac:(cbn; auto)) Hfree Hne) as (R1 & C1 & _ & F1).
  rewrite HC in R1, C1.
  destruct (authenticate_wrong_password ctx t2 db email p2 request _ user Hq Ha
              (Hv p2 ltac:(cbn; auto)) F1 Hne) as (R2 & C2 & _ & F2).
  rewrite C1 in R2, C2.
  destruct (authenticate_wrong_password ctx t3 db email p3 request _ user Hq Ha
              (Hv p3 ltac:(cbn; auto)) F2 Hne) as (R3 & C3 & _ & F3).
  rewrite C2 in R3, C3.
  destruct (authenticate_wrong_password ctx t4 db email p4 request _ user Hq Ha
              (Hv p4 ltac:(cbn; auto)) F3 Hne) as (R4 & C4 & _ & F4).
  rewrite C3 in R4, C4.
  destruct (authenticate_wrong_password ctx t5 db email p5 request _ user Hq Ha
              (Hv p5 ltac:(cbn; auto 10)) F4 Hne) as (R5 & _ & E5 & _).
  rewrite C4 in R5, E5.
  rewrite R1, R2, R3, R4, R5. split; [reflexivity | exact E5].
Qed.

(** An instance: [u1] with the password ["wrong"] five times. *)
Lemma five_wrong_passwords_lock_the_user_witness :
  Clean "user:u1" initial /\
  lockout_expiry "user:u1"
    (snd (authenticate_in_turn Sample.sample_context Sample.users
            (Some Sample.login_request)
            [(0, "u1@example.com", "wrong"); (1, "u1@example.com", "wrong");
             (2, "u1@example.com", "wrong"); (3, "u1@example.com", "wrong");
             (4, "u1@example.com", "wrong")] initial))
  = Some (4 + lockout_duration).
Proof.
  assert (HC : Clean ("user:" +:+ Database.id Sample.u1) initial) by (split; reflexivity).
  assert (Hv : forall p, In p ["wrong"; "wrong"; "wrong"; "wrong"; "wrong"] ->
                 verify Sample.sample_context p (Database.hashed_password Sample.u1)
                 <> Returned true).
  { intros p Hp. cbn [In] in Hp.
    assert (p = "wrong") as -> by intuition auto. discriminate. }
  split; [exact HC |].
  exact (proj2 (five_wrong_passwords_lock_the_user Sample.sample_context Sample.users
                  (Some Sample.login_request) initial Sample.u1 "u1@example.com"
                  0 1 2 3 4 "wrong" "wrong" "wrong" "wrong" "wrong"
                  eq_refl eq_refl Hv eq_refl ltac:(discriminate) HC)).
Defined.

(** A deactivated account is refused with its own message, whatever the
    password, and no attempt is counted: the tracker is left as it was. *)
Theorem inactive_user_is_refused_without_counting
    (ctx : CryptContext) (now : Z) (db : list Database.User) (email password : string)
    (request : option Http.Request) (st : state) (user : Database.User) :
  Database.query_first (fun x => String.eqb (Database.email x) email) db = Some user ->
  Database.is_active user = false ->
  lockout_expiry (client_ip_of request) st = None ->
  fst (authenticate_user ctx now db email password request st)
    = Raised (HTTPException 423 "Account is deactivated") /\
  login_tracker (snd (authenticate_user ctx now db email password request st))
    = login_tracker st.
Proof.
  intros Hq Ha Hfree.
  assert (Heq : authenticate_user ctx now db email password request st
                = (Raised (HTTPException 423 "Account is deactivated"),
                   log_security_event "LOGIN_INACTIVE_USER" (Some (Database.id user))
                     (Some (client_ip_of request)) NoDetails st)).
  { unfold authenticate_user. fold (client_ip_of request).
    unfold bind at 1. unfold call at 1.
    unfold is_locked_out. unfold lockout_expiry in Hfree. rewrite Hfree.
    rewrite Hq, Ha. reflexivity. }
  rewrite Heq. split; reflexivity.
Qed.

(** An instance: a deactivated copy of [u1]. *)
Lemma inactive_user_is_refused_without_counting_witness :
  fst (authenticate_user Sample.sample_context 0 [Sample.deactivated]
         "u1@example.com" "P@ssw0rd1" (Some Sample.login_request) initial)
  = Raised (HTTPException 423 "Account is deactivated").
Proof.
  exact (proj1 (inactive_user_is_refused_without_counting Sample.sample_context 0
                  [Sample.deactivated] "u1@example.com" "P@ssw0rd1"
                  (Some Sample.login_request) initial Sample.deactivated
                  eq_refl eq_refl eq_refl)).
Defined.

End AuthFlowProps.

(** ** Hashing and tokens *)

Module HashTokenProps.

Import Auth.



(** The claims of an access token as [jwt.encode] stores them. *)
Lemma access_token_payload environ now data d :
  d <> 0 ->
  exists payload,
    create_access_token environ now data (Some d)
      = Jose.Signed payload (SECRET_KEY environ) ALGORITHM /\
    payload !! "exp" = Some (Jose.CInt (Jose.seconds (now + d))) /\
    payload !! "type" = Some (Jose.CStr "access") /\
    payload !! "sub" = data !! "sub".
Proof.
  intros Hd. unfold create_access_token.
  apply Z.eqb_neq in Hd. rewrite Hd.
  unfold Jose.encode.
  rewrite (lookup_insert_ne _ "type" "exp") by discriminate.
  rewrite lookup_insert_eq.
  eexists. split; [reflexivity |].
  rewrite lookup_insert_eq.
  rewrite (lookup_insert_ne _ "exp" "type") by discriminate.
  rewrite lookup_insert_eq.
  rewrite !(lookup_insert_ne _ _ "sub") by discriminate.
  auto.
Qed.

(** An access token made as the program makes it, with the id of a user
    under [sub] and nothing else, presented to [get_current_user]. *)
Lemma access_token_presented
    (environ : gmap string string) (now now' d : Z)
    (uid : string) (db : list Database.User) (user : Database.User) (st : state) :
  d <> 0 ->
  Database.query_first (id_is (Jose.CStr uid)) db = Some user ->
  let token := create_access_token environ now {["sub" := Jose.CStr uid]} (Some d) in
  (Jose.seconds now' <= Jose.seconds (now + d) ->
     get_current_user environ now' token db st = (Returned user, st)) /\
  (Jose.seconds (now + d) < Jose.seconds now' ->
     fst (get_current_user environ now' token db st) = Raised credentials_exception).
Proof.
  intros Hd Hq token. subst token.
  destruct (access_token_payload environ now {["sub" := Jose.CStr uid]} d Hd)
    as (p & -> & Hexp & Hty & Hs).
  rewrite lookup_singleton_eq in Hs.
  unfold get_current_user, bind, try_except, Jose.decode.
  rewrite TokenProps.str_in_algorithm, String.eqb_refl. cbn [negb].
  rewrite Hexp. split; intros Hclock.
  - apply Z.ltb_ge in Hclock. rewrite Hclock.
    rewrite Hs, Hty. unfold ret. now rewrite Hq.
  - apply Z.ltb_lt in Hclock. rewrite Hclock. reflexivity.
Qed.

(** Round trip of an access token.  A token made the way the program makes
    its access tokens, from [{"sub": <id>}] with the id of a user of the
    table, is accepted by [get_current_user], which returns that user and
    changes nothing, as long as the clock (in whole seconds) has not passed
    the expiry; after that it is refused with the 401. *)
Theorem access_token_round_trip
    (environ : gmap string string) (now now' d : Z)
    (uid : string) (db : list Database.User) (user : Database.User) (st : state) :
  d <> 0 ->
  Database.query_first (id_is (Jose.CStr uid)) db = Some user ->
  let token := create_access_token environ now {["sub" := Jose.CStr uid]} (Some d) in
  (Jose.seconds now' <= Jose.seconds (now + d) ->
     get_current_user environ now' token db st = (Returned user, st)) /\
  (Jose.seconds (now + d) < Jose.seconds now' ->
     fst (get_current_user environ now' token db st) = Raised credentials_exception).
Proof. apply access_token_presented. Qed.

(** An instance: the access token of [u1], one minute after it was issued. *)
Lemma access_token_round_trip_witness :
  get_current_user ∅ Sample.minute
    (create_access_token ∅ 0 {["sub" := Jose.CStr "u1"]} (Some (30 * Sample.minute)))
    Sample.users initial
  = (Returned Sample.u1, initial).
Proof.
  exact (proj1 (access_token_round_trip ∅ 0 Sample.minute (30 * Sample.minute)
                  "u1" Sample.users Sample.u1 initial ltac:(discriminate) eq_refl)
           ltac:(discriminate)).
Defined.

(** What a payload returned by [jwt.decode] says about the token. *)
Lemma decode_returned now tok key algorithms p :
  Jose.decode now tok key algorithms = Returned p ->
  exists alg,
    tok = Jose.Signed p key alg /\
    str_in alg algorithms = true /\
    (forall z, p !! "exp" = Some (Jose.CInt z) -> Jose.seconds now <= z).
Proof.
  unfold Jose.decode.
  destruct tok as [q k alg | raw]; [| discriminate].
  destruct (str_in alg algorithms) eqn:Halg; cbn [negb]; [| discriminate].
  destruct (String.eqb_spec k key) as [-> | _]; cbn [negb]; [| discriminate].
  destruct (q !! "exp") as [[x | z | t] |] eqn:Hexp; try discriminate.
  - destruct (z <? Jose.seconds now) eqn:Hlt; [discriminate |].
    intros H. injection H as ->. exists alg. rewrite Hexp.
    split; [reflexivity | split; [exact Halg |]].
    intros z0 Hz. injection Hz as <-. now apply Z.ltb_ge.
  - intros H. injection H as ->. exists alg. rewrite Hexp.
    split; [reflexivity | split; [exact Halg |]].
    intros z0 Hz. discriminate Hz.
Qed.


(** Taking apart a string compared with a literal. *)
Ltac split_string_match :=
  repeat (match goal with
          | |- context [match ?x with Ascii _ _ _ _ _ _ _ _ => _ end] => destruct x
          | |- context [if ?b then _ else _] => destruct b
          | |- context [match ?t with EmptyString => _ | String _ _ => _ end] =>
              destruct t
          end; try (intros; discriminate)).

(** [get_current_user] returns a user only for a token that carries the
    configured secret and algorithm, has not expired, says [type = "access"]
    and names in [sub] the id of the user, who is a row of the table.  The
    state is left as it was. *)
Theorem get_current_user_accepts_only_access_tokens
    (environ : gmap string string) (now : Z) (token : Jose.token)
    (db : list Database.User) (st st' : state) (user : Database.User) :
  get_current_user environ now token db st = (Returned user, st') ->
  exists payload,
    token = Jose.Signed payload (SECRET_KEY environ) "HS256" /\
    payload !! "type" = Some (Jose.CStr "access") /\
    payload !! "sub" = Some (Jose.CStr (Database.id user)) /\
    (forall z, payload !! "exp" = Some (Jose.CInt z) -> Jose.seconds now <= z) /\
    In user db /\
    st' = st.
Proof.
  unfold get_current_user, bind, try_except.
  destruct (Jose.decode now token (SECRET_KEY environ) [ALGORITHM]) as [p | e] eqn:Hdec.
  - apply decode_returned in Hdec. destruct Hdec as (alg & -> & Halg & Hexp).
    unfold str_in, ALGORITHM in Halg. cbn [existsb] in Halg.
    rewrite orb_false_r in Halg. apply String.eqb_eq in Halg. subst alg.
    destruct (p !! "sub") as [c |] eqn:Hsub; [| intros H; discriminate H].
    destruct (p !! "type") as [[ty | z | t] |] eqn:Hty; try (intros H; discriminate H).
    destruct (String.eqb_spec ty "access") as [-> | Hne].
    + unfold ret.
      destruct (Database.query_first (id_is c) db) as [u0 |] eqn:Hq;
        [| intros H; discriminate H].
      intros H. injection H as -> ->.
      apply find_some in Hq. destruct Hq as [Hin Hid].
      destruct c as [x | z | t]; cbn [id_is] in Hid; try discriminate Hid.
      apply String.eqb_eq in Hid. subst x.
      exists p. auto 10.
    + assert (Hshape : forall ty : string,
                ty <> "access" ->
                forall (A : Type) (a b : A),
                  match ty with
                  | "access" => a
                  | _ => b
                  end = b).
      { clear. intros ty Hne A a b. split_string_match; try reflexivity.
        exfalso. apply Hne. reflexivity. }
      cbv beta iota.
      rewrite (Hshape ty Hne). intros H. discriminate H.
  - destruct (is_JWTError e); intros H; discriminate H.
Qed.

(** An instance: the access token of [u1], one minute after it was issued. *)
Lemma get_current_user_accepts_only_access_tokens_witness :
  get_current_user ∅ Sample.minute
    (Main.Schemas.access_token (Main.issue_tokens ∅ 0 Sample.u1)) Sample.users initial
  = (Returned Sample.u1, initial) /\
  exists payload,
    Main.Schemas.access_token (Main.issue_tokens ∅ 0 Sample.u1)
      = Jose.Signed payload (SECRET_KEY ∅) "HS256" /\
    payload !! "type" = Some (Jose.CStr "access") /\
    payload !! "sub" = Some (Jose.CStr "u1").
Proof.
  assert (H : get_current_user ∅ Sample.minute
                (Main.Schemas.access_token (Main.issue_tokens ∅ 0 Sample.u1))
                Sample.users initial
              = (Returned Sample.u1, initial)) by (vm_compute; reflexivity).
  split; [exact H |].
  destruct (get_current_user_accepts_only_access_tokens _ _ _ _ _ _ _ H)
    as (payload & Htoken & Htype & Hsub & _).
  exists payload. auto.
Defined.



(** The claims of a refresh token as [jwt.encode] stores them. *)
Lemma refresh_token_payload environ now data :
  exists payload,
    create_refresh_token environ now data
      = Jose.Signed payload (SECRET_KEY environ) ALGORITHM /\
    payload !! "exp"
      = Some (Jose.CInt (Jose.seconds (now + timedelta_days REFRESH_TOKEN_EXPIRE_DAYS))) /\
    payload !! "sub" = data !! "sub".
Proof.
  unfold create_refresh_token, Jose.encode.
  rewrite (lookup_insert_ne _ "type" "exp") by discriminate.
  rewrite lookup_insert_eq.
  eexists. split; [reflexivity |].
  rewrite lookup_insert_eq.
  rewrite !(lookup_insert_ne _ _ "sub") by discriminate.
  auto.
Qed.

(** Round trip of a refresh token.  The refresh token of a pair issued to a
    user of the table buys a new pair for the same user for seven days (in
    whole seconds) and is refused afterwards; the state is not touched. *)
Theorem refresh_token_round_trip
    (environ : gmap string string) (now now' : Z)
    (db : list Database.User) (user : Database.User) (st : state) :
  truthy (Database.id user) = true ->
  Database.query_first (id_is (Jose.CStr (Database.id user))) db = Some user ->
  let issued := Main.issue_tokens environ now user in
  (Jose.seconds now' <= Jose.seconds (now + timedelta_days 7) ->
     Main.refresh_token environ now' (Main.Schemas.refresh_token issued) db st
     = (Returned (Main.issue_tokens environ now' user), st)) /\
  (Jose.seconds (now + timedelta_days 7) < Jose.seconds now' ->
     Main.refresh_token environ now' (Main.Schemas.refresh_token issued) db st
     = (Raised (HTTPException 401 "Invalid refresh token"), st)).
Proof.
  intros Hid Hq issued. subst issued.
  unfold Main.issue_tokens. cbn [Main.Schemas.refresh_token].
  destruct (refresh_token_payload environ now {["sub" := Jose.CStr (Database.id user)]})
    as (p & -> & Hexp & Hsub).
  rewrite lookup_singleton_eq in Hsub.
  change (timedelta_days REFRESH_TOKEN_EXPIRE_DAYS) with (timedelta_days 7) in Hexp.
  split; intros Hclock.
  - apply (TokenProps.refresh_token_ignores_type environ now' p db st
             (Database.id user) user Hsub Hid); [| | exact Hq].
    + intros z Hz. rewrite Hexp in Hz. injection Hz as <-. exact Hclock.
    + intros c Hc. rewrite Hexp in Hc. injection Hc as <-. eauto.
  - unfold Main.refresh_token, try_except, bind, Jose.decode.
    rewrite TokenProps.str_in_algorithm, String.eqb_refl. cbn [negb].
    rewrite Hexp. apply Z.ltb_lt in Hclock. rewrite Hclock. reflexivity.
Qed.

(** An instance: the refresh token of [u1], a day after it was issued. *)
Lemma refresh_token_round_trip_witness :
  Main.refresh_token ∅ (Sample.minute * 1440)
    (Main.Schemas.refresh_token (Main.issue_tokens ∅ 0 Sample.u1)) Sample.users initial
  = (Returned (Main.issue_tokens ∅ (Sample.minute * 1440) Sample.u1), initial).
Proof.
  exact (proj1 (refresh_token_round_trip ∅ 0 (Sample.minute * 1440)
                  Sample.users Sample.u1 initial eq_refl eq_refl)
           ltac:(discriminate)).
Defined.

(** [POST /auth/refresh] has one failure: whatever is raised in its body, the
    [User not found] of an unknown subject included, leaves as the 401
    [Invalid refresh token], and the state is left as it was. *)
Theorem refresh_token_fails_uniformly
    (environ : gmap string string) (now : Z) (token : Jose.token)
    (db : list Database.User) (st : state) :
  snd (Main.refresh_token environ now token db st) = st /\
  forall e,
    fst (Main.refresh_token environ now token db st) = Raised e ->
    e = HTTPException 401 "Invalid refresh token".
Proof.
  unfold Main.refresh_token, try_except, bind, Exception, raise, ret.
  destruct (Jose.decode now token (SECRET_KEY environ) [ALGORITHM]) as [p | e0].
  - destruct (Main.falsy (p !! "sub")); cbn.
    + split; [reflexivity | intros e H; now injection H].
    + destruct (Database.query_first _ db); cbn.
      * split; [reflexivity | intros e H; discriminate H].
      * split; [reflexivity | intros e H; now injection H].
  - cbn. split; [reflexivity | intros e H; now injection H].
Qed.

End HashTokenProps.

(** ** Client addresses *)

Module AddressProps.

Import Auth AddressSpec.

Lemma append_cons c (a b : string) : String c a +:+ b = String c (a +:+ b).
Proof. reflexivity. Qed.

Lemma append_nil_r (a : string) : a +:+ "" = a.
Proof.
  induction a as [| x a IH]; [reflexivity |].
  rewrite append_cons. now f_equal.
Qed.

Lemma append_assoc (a b c : string) : (a +:+ b) +:+ c = a +:+ (b +:+ c).
Proof.
  induction a as [| x a IH]; [reflexivity |].
  rewrite !append_cons. f_equal. exact IH.
Qed.

(** *** The answer of the code meets the description *)

Lemma split_head_prefix sep s :
  exists rest,
    s = split_head sep s +:+ rest /\
    match rest with
    | EmptyString => true
    | String c _ => Ascii.eqb c sep
    end = true.
Proof.
  induction s as [| c r (rest & IH & Hrest)]; cbn [split_head].
  - now exists "".
  - destruct (Ascii.eqb c sep) eqn:E.
    + exists (String c r). split; [reflexivity | exact E].
    + exists rest. split; [| exact Hrest].
      rewrite append_cons. f_equal. exact IH.
Qed.

Lemma split_head_no_sep sep s : has_char sep (split_head sep s) = false.
Proof.
  induction s as [| c r IH]; cbn; [reflexivity |].
  destruct (Ascii.eqb c sep) eqn:E; cbn; [reflexivity |].
  now rewrite E.
Qed.

Lemma lstrip_suffix s :
  exists lead, s = lead +:+ lstrip s /\ all_space lead = true.
Proof.
  induction s as [| c r (lead & IH & Hlead)]; cbn [lstrip].
  - now exists "".
  - destruct (is_space c) eqn:E.
    + exists (String c lead). split.
      * rewrite append_cons. f_equal. exact IH.
      * cbn [all_space]. now rewrite E.
    + now exists "".
Qed.

Lemma lstrip_no_space s : starts_with_space (lstrip s) = false.
Proof.
  induction s as [| c r IH]; cbn; [reflexivity |].
  destruct (is_space c) eqn:E; [exact IH | cbn; exact E].
Qed.

Lemma lstrip_has_char c s : has_char c (lstrip s) = true -> has_char c s = true.
Proof.
  induction s as [| a r IH]; cbn; [auto |].
  destruct (is_space a); cbn; [| auto].
  intros H. rewrite (IH H). apply orb_true_r.
Qed.

Lemma rstrip_prefix s :
  exists trail, s = rstrip s +:+ trail /\ all_space trail = true.
Proof.
  induction s as [| c r (trail & IH & Htrail)]; cbn [rstrip].
  - now exists "".
  - destruct (rstrip r) as [| a r'] eqn:E.
    + destruct (is_space c) eqn:Ec.
      * exists (String c r). split; [reflexivity |].
        cbn [all_space]. rewrite Ec. cbn [andb].
        change ("" +:+ trail) with trail in IH. now rewrite IH.
      * exists trail. split; [| exact Htrail].
        rewrite append_cons. f_equal. exact IH.
    + exists trail. split; [| exact Htrail].
      rewrite append_cons. f_equal. exact IH.
Qed.

Lemma rstrip_no_space s : ends_with_space (rstrip s) = false.
Proof.
  induction s as [| c r IH]; cbn; [reflexivity |].
  destruct (rstrip r) as [| a r'] eqn:E.
  - destruct (is_space c) eqn:Ec; cbn; [reflexivity | exact Ec].
  - exact IH.
Qed.

Lemma rstrip_keeps_start s :
  starts_with_space s = false -> starts_with_space (rstrip s) = false.
Proof.
  destruct s as [| c r]; cbn; [auto |].
  intros Hc. destruct (rstrip r); [rewrite Hc |]; cbn; auto.
Qed.

Lemma rstrip_has_char c s : has_char c (rstrip s) = true -> has_char c s = true.
Proof.
  induction s as [| a r IH]; cbn; [auto |].
  destruct (rstrip r) as [| b r'] eqn:E.
  - destruct (is_space a); cbn; [discriminate |].
    rewrite orb_false_r. intros ->. reflexivity.
  - cbn [has_char]. intros H. apply orb_prop in H. destruct H as [-> | H].
    + reflexivity.
    + rewrite (IH H). apply orb_true_r.
Qed.

(** What [split(",")[0].strip()] returns is the first entry, stripped. *)
Lemma strip_split_head_sound v :
  first_entry_stripped v (strip (split_head "," v)).
Proof.
  unfold first_entry_stripped, strip. split; [| split; [| split]].
  - destruct (split_head_prefix "," v) as (rest & H1 & Hrest).
    destruct (lstrip_suffix (split_head "," v)) as (lead & H2 & Hlead).
    destruct (rstrip_prefix (lstrip (split_head "," v))) as (trail & H3 & Htrail).
    exists lead, trail, rest.
    split; [| auto].
    rewrite <- (append_assoc (rstrip (lstrip (split_head "," v))) trail rest), <- H3.
    rewrite <- (append_assoc lead (lstrip (split_head "," v)) rest), <- H2.
    exact H1.
  - destruct (has_char "," (rstrip (lstrip (split_head "," v)))) eqn:E; [| reflexivity].
    apply rstrip_has_char, lstrip_has_char in E.
    now rewrite split_head_no_sep in E.
  - apply rstrip_keeps_start, lstrip_no_space.
  - apply rstrip_no_space.
Qed.

(** *** Whatever meets the description is the answer of the code *)

Lemma has_char_app c a b : has_char c (a +:+ b) = has_char c a || has_char c b.
Proof.
  induction a as [| x a IH]; [reflexivity |].
  rewrite append_cons. cbn [has_char]. rewrite IH. apply orb_assoc.
Qed.

Lemma all_space_no_comma s : all_space s = true -> has_char "," s = false.
Proof.
  induction s as [| c s IH]; [reflexivity |].
  cbn [all_space has_char]. intros H. apply andb_prop in H. destruct H as [Hc Hs].
  rewrite (IH Hs), orb_false_r.
  apply not_true_is_false. intros E. apply Ascii.eqb_eq in E. subst c.
  discriminate Hc.
Qed.

Lemma split_head_app sep a rest :
  has_char sep a = false ->
  match rest with
  | EmptyString => true
  | String c _ => Ascii.eqb c sep
  end = true ->
  split_head sep (a +:+ rest) = a.
Proof.
  intros Ha Hrest. induction a as [| x a IH].
  - change ("" +:+ rest) with rest.
    destruct rest as [| c r]; [reflexivity |]. cbn [split_head]. now rewrite Hrest.
  - cbn [has_char] in Ha. apply orb_false_elim in Ha. destruct Ha as [Hx Ha].
    rewrite append_cons. cbn [split_head]. rewrite Hx. f_equal. now apply IH.
Qed.

Lemma lstrip_app_space lead s :
  all_space lead = true -> lstrip (lead +:+ s) = lstrip s.
Proof.
  induction lead as [| c lead IH]; [reflexivity |].
  cbn [all_space]. intros H. apply andb_prop in H. destruct H as [Hc Hl].
  rewrite append_cons. cbn [lstrip]. rewrite Hc. now apply IH.
Qed.

Lemma lstrip_all_space s : all_space s = true -> lstrip s = "".
Proof.
  induction s as [| c s IH]; [reflexivity |].
  cbn [all_space lstrip]. intros H. apply andb_prop in H. destruct H as [Hc Hs].
  rewrite Hc. now apply IH.
Qed.

Lemma lstrip_keeps s : starts_with_space s = false -> lstrip s = s.
Proof. destruct s as [| c s]; cbn; [auto |]. now intros ->. Qed.

Lemma rstrip_all_space s : all_space s = true -> rstrip s = "".
Proof.
  induction s as [| c s IH]; [reflexivity |].
  cbn [all_space rstrip]. intros H. apply andb_prop in H. destruct H as [Hc Hs].
  now rewrite (IH Hs), Hc.
Qed.

Lemma rstrip_keeps s : ends_with_space s = false -> rstrip s = s.
Proof.
  induction s as [| c s IH]; [reflexivity |].
  destruct s as [| d s].
  - cbn. now intros ->.
  - intros H. change (ends_with_space (String d s) = false) in H.
    change (rstrip (String c (String d s)))
      with (match rstrip (String d s) with
            | EmptyString => if is_space c then EmptyString else String c EmptyString
            | r' => String c r'
            end).
    now rewrite (IH H).
Qed.

Lemma rstrip_app_space s trail :
  all_space trail = true -> rstrip (s +:+ trail) = rstrip s.
Proof.
  intros Ht. induction s as [| c s IH].
  - change ("" +:+ trail) with trail. now apply rstrip_all_space.
  - rewrite append_cons. cbn [rstrip]. now rewrite IH.
Qed.

Lemma strip_padded lead ip trail :
  all_space lead = true ->
  all_space trail = true ->
  starts_with_space ip = false ->
  ends_with_space ip = false ->
  strip (lead +:+ ip +:+ trail) = ip.
Proof.
  intros Hlead Htrail Hs He. unfold strip.
  rewrite (lstrip_app_space lead _ Hlead).
  destruct ip as [| c ip].
  - change ("" +:+ trail) with trail.
    now rewrite (lstrip_all_space trail Htrail).
  - rewrite lstrip_keeps by (rewrite append_cons; exact Hs).
    rewrite (rstrip_app_space _ trail Htrail). now apply rstrip_keeps.
Qed.

Lemma strip_split_head_complete v ip :
  first_entry_stripped v ip -> strip (split_head "," v) = ip.
Proof.
  intros ((lead & trail & rest & -> & Hlead & Htrail & Hrest) & Hcomma & Hs & He).
  rewrite <- !append_assoc.
  rewrite split_head_app.
  - rewrite append_assoc. now apply strip_padded.
  - rewrite !has_char_app, Hcomma.
    now rewrite (all_space_no_comma lead Hlead), (all_space_no_comma trail Htrail).
  - exact Hrest.
Qed.

(** With a non-empty [X-Forwarded-For] header, the client address is the
    first entry of the header's comma-separated value without the white
    space around it, and nothing else is: a string is returned by
    [get_client_ip] exactly when it meets that description.  The
    [X-Real-IP] header and the peer address are not read, and the threat
    detector derives the same address. *)
Theorem forwarded_address_is_first_entry_stripped
    (request : Http.Request) (v : string) :
  Http.headers_get "X-Forwarded-For" request = Some v ->
  v <> "" ->
  (forall ip, first_entry_stripped v ip <-> get_client_ip request = ip) /\
  Monitoring._get_client_ip request = get_client_ip request.
Proof.
  intros Hv Hne.
  assert (Ht : some_truthy (Some v) = true).
  { unfold some_truthy, truthy. destruct (String.eqb_spec v ""); [contradiction | reflexivity]. }
  unfold get_client_ip, Monitoring._get_client_ip. rewrite Hv, Ht. cbn [default].
  split; [| reflexivity].
  intros ip. split.
  - apply strip_split_head_complete.
  - intros <-. apply strip_split_head_sound.
Qed.

(** An instance: a proxy chain with padding. *)
Lemma forwarded_address_is_first_entry_stripped_witness :
  get_client_ip
    (Sample.request_with_headers [("x-forwarded-for", " 1.2.3.4 , 10.0.0.1")]) = "1.2.3.4" /\
  first_entry_stripped " 1.2.3.4 , 10.0.0.1" "1.2.3.4".
Proof.
  assert (H : get_client_ip
                (Sample.request_with_headers [("x-forwarded-for", " 1.2.3.4 , 10.0.0.1")])
              = "1.2.3.4") by (vm_compute; reflexivity).
  split; [exact H |].
  exact (proj2 (proj1 (forwarded_address_is_first_entry_stripped
                         (Sample.request_with_headers
                            [("x-forwarded-for", " 1.2.3.4 , 10.0.0.1")])
                         " 1.2.3.4 , 10.0.0.1" eq_refl ltac:(discriminate))
                  "1.2.3.4") H).
Defined.

End AddressProps.

(** ** The detector and its history *)

Module HistoryProps.

Import Monitoring DetectorSpec HistorySpec.

(** Pruning twice, the second time at a later clock reading, is pruning
    once. *)
Lemma pruned_pruned c now l :
  c <= now -> pruned now (pruned c l) = pruned now l.
Proof.
  intros Hc. unfold pruned.
  induction l as [| t l IH]; [reflexivity |].
  cbn [List.filter].
  destruct (now - timedelta_minutes 30 <? t) eqn:E.
  - assert (E' : (c - timedelta_minutes 30 <? t) = true)
      by (apply Z.ltb_lt; apply Z.ltb_lt in E; lia).
    rewrite E'. cbn [List.filter]. rewrite E. now f_equal.
  - destruct (c - timedelta_minutes 30 <? t); [cbn [List.filter]; rewrite E |]; exact IH.
Qed.

Lemma pruned_app now a b : pruned now (a ++ b) = pruned now a ++ pruned now b.
Proof. apply List.filter_app. Qed.

Lemma record_failed_login_held now ip uid self :
  held ip (snd (record_failed_login now ip uid self))
    = pruned now (held ip self ++ [now]) /\
  fst (record_failed_login now ip uid self)
    = (max_failed_attempts <=? Z.of_nat (length (pruned now (held ip self ++ [now])))).
Proof.
  unfold record_failed_login, held, pruned.
  match goal with |- context [max_failed_attempts <=? ?n] =>
    destruct (max_failed_attempts <=? n) end;
    cbn [fst snd failed_attempts]; rewrite lookup_insert_eq; auto.
Qed.

Lemma verdicts_from_history ip uid times :
  forall (history : list Z) (c : Z) (self : ThreatDetector),
    held ip self = pruned c history ->
    Forall (Z.le c) times ->
    nondecreasing times ->
    fst (record_failed_logins times ip uid self) = verdicts history times.
Proof.
  induction times as [| now rest IH]; intros history c self Hheld Hc Hnd.
  - reflexivity.
  - apply List.Forall_cons_iff in Hc. destruct Hc as [Hnow _].
    destruct Hnd as [Hrest Hnd].
    rewrite DetectorProps.fst_record_failed_logins_cons.
    destruct (record_failed_login_held now ip uid self) as [Hh Hf].
    assert (Hp : pruned now (held ip self ++ [now]) = pruned now (history ++ [now])).
    { rewrite !pruned_app, Hheld. f_equal. now apply pruned_pruned. }
    rewrite Hp in Hh, Hf.
    cbn [verdicts]. f_equal.
    + exact Hf.
    + apply (IH (history ++ [now]) now); assumption.
Qed.

(** The detector forgets failed logins as it goes, and yet, as long as the
    clock does not run backwards, it decides as if it had kept them all:
    starting with nothing held for the address, each failed login blocks
    exactly when five or more of the failed logins so far, itself included,
    are less than 30 minutes old. *)
Theorem pruning_agrees_with_full_history
    (ip : string) (uid : option string) (self : ThreatDetector) (times : list Z) :
  held ip self = [] ->
  nondecreasing times ->
  fst (record_failed_logins times ip uid self) = verdicts [] times.
Proof.
  intros Hheld Hnd.
  destruct times as [| now rest]; [reflexivity |].
  apply (verdicts_from_history ip uid (now :: rest) [] now self).
  - rewrite Hheld. reflexivity.
  - constructor; [lia | exact (proj1 Hnd)].
  - exact Hnd.
Qed.

(** An instance: six failed logins of 1.2.3.4, the first an hour before the
    others; the fifth does not block, the sixth does. *)
Lemma pruning_agrees_with_full_history_witness :
  nondecreasing [0; 60 * Sample.minute; 61 * Sample.minute; 62 * Sample.minute;
                 63 * Sample.minute; 64 * Sample.minute] /\
  fst (record_failed_logins
         [0; 60 * Sample.minute; 61 * Sample.minute; 62 * Sample.minute;
          63 * Sample.minute; 64 * Sample.minute] "1.2.3.4" None new_detector)
    = [false; false; false; false; false; true].
Proof.
  assert (H : nondecreasing [0; 60 * Sample.minute; 61 * Sample.minute;
                             62 * Sample.minute; 63 * Sample.minute;
                             64 * Sample.minute]).
  { cbn [nondecreasing]. unfold Sample.minute, Sample.second.
    repeat split; repeat constructor; lia. }
  split; [exact H |].
  exact (pruning_agrees_with_full_history "1.2.3.4" None new_detector _ eq_refl H).
Defined.

Lemma length_filter_le {A} (f : A -> bool) (l : list A) :
  (length (List.filter f l) <= length l)%nat.
Proof.
  induction l as [| a l IH]; cbn [List.filter length]; [lia |].
  destruct (f a); cbn [length]; lia.
Qed.

(** What one call can do to an address: its held failed logins grow by at
    most one, and only by a failed login for it; it is blocked afterwards
    only if it was before or five are held. *)
Lemma after_detector_call_failed ip self c n :
  (length (held ip self) <= n)%nat ->
  (ip ∈ blocked_ips self -> (5 <= n)%nat) ->
  (length (held ip (after_detector_call self c)) <= n + failed_login_calls ip [c])%nat /\
  (ip ∈ blocked_ips (after_detector_call self c) ->
   (5 <= n + failed_login_calls ip [c])%nat).
Proof.
  intros Hlen Hblocked.
  destruct c as [now request uid | now j uid];
    cbn [after_detector_call failed_login_calls List.filter length].
  - unfold analyze_request, held. cbn [snd failed_attempts blocked_ips].
    unfold held in Hlen. split; [lia |]. intros H. specialize (Hblocked H). lia.
  - case_bool_decide as Hj.
    + subst j. cbn [length].
      destruct (record_failed_login_held now ip uid self) as [Hh Hf].
      assert (Hk : (length (pruned now (held ip self ++ [now])) <= n + 1)%nat).
      { etransitivity; [apply length_filter_le |].
        rewrite length_app. cbn [length]. lia. }
      rewrite Hh. split; [exact Hk |].
      revert Hf. unfold record_failed_login.
      fold (held ip self). fold (pruned now (held ip self ++ [now])).
      destruct (max_failed_attempts <=? Z.of_nat (length (pruned now (held ip self ++ [now]))))
        eqn:E; cbn [fst snd blocked_ips]; intros _.
      * intros _. apply Z.leb_le in E. unfold max_failed_attempts in E. lia.
      * intros H. specialize (Hblocked H). lia.
    + cbn [length]. unfold record_failed_login, held.
      match goal with |- context [max_failed_attempts <=? ?m] =>
        destruct (max_failed_attempts <=? m) end;
        cbn [fst snd failed_attempts blocked_ips];
        rewrite lookup_insert_ne by exact Hj;
        unfold held in Hlen; (split; [lia |]); intros H.
      * apply elem_of_union in H. destruct H as [H | H].
        -- apply elem_of_singleton in H. congruence.
        -- specialize (Hblocked H). lia.
      * specialize (Hblocked H). lia.
Qed.

Lemma failed_login_calls_cons ip c calls :
  failed_login_calls ip (c :: calls)
    = (failed_login_calls ip [c] + failed_login_calls ip calls)%nat.
Proof.
  unfold failed_login_calls. cbn [List.filter].
  destruct c as [now request uid | now j uid]; [reflexivity |].
  destruct (bool_decide (j = ip)); reflexivity.
Qed.

Lemma after_detector_calls_failed ip calls :
  forall self n,
    (length (held ip self) <= n)%nat ->
    (ip ∈ blocked_ips self -> (5 <= n)%nat) ->
    ip ∈ blocked_ips (after_detector_calls calls self) ->
    (5 <= n + failed_login_calls ip calls)%nat.
Proof.
  unfold after_detector_calls.
  induction calls as [| c calls IH]; intros self n Hlen Hblocked; cbn [fold_left].
  - intros H. specialize (Hblocked H). cbn. lia.
  - destruct (after_detector_call_failed ip self c n Hlen Hblocked) as [Hl Hb].
    intros H. rewrite failed_login_calls_cons.
    specialize (IH _ _ Hl Hb H). lia.
Qed.

(** No address is blocked lightly: an address in the blocked set of a
    detector that started new has had at least five failed logins recorded
    for it.  Analysing requests, whatever they hold and however many they
    are, blocks nobody. *)
Theorem blocked_only_after_five_failed_logins
    (ip : string) (calls : list detector_call) :
  ip ∈ blocked_ips (after_detector_calls calls new_detector) ->
  (5 <= failed_login_calls ip calls)%nat.
Proof.
  intros H.
  apply (after_detector_calls_failed ip calls new_detector 0%nat); [| | exact H].
  - unfold held, new_detector. cbn [failed_attempts].
    rewrite lookup_empty. cbn [default length]. lia.
  - intros Hin. unfold new_detector in Hin. cbn [blocked_ips] in Hin.
    now apply not_elem_of_empty in Hin.
Qed.

(** An instance: five failed logins of 1.2.3.4 within a minute. *)
Lemma blocked_only_after_five_failed_logins_witness :
  "1.2.3.4" ∈ blocked_ips (after_detector_calls Sample.five_failed_logins new_detector) /\
  (5 <= failed_login_calls "1.2.3.4" Sample.five_failed_logins)%nat.
Proof.
  assert (H : "1.2.3.4" ∈ blocked_ips
                (after_detector_calls Sample.five_failed_logins new_detector)).
  { apply (bool_decide_unpack _). vm_compute. exact I. }
  split; [exact H |].
  exact (blocked_only_after_five_failed_logins "1.2.3.4" _ H).
Defined.

(** *** The request windows *)

Lemma length_deque_append maxlen x d :
  (length d <= maxlen)%nat -> (length (deque_append maxlen x d) <= maxlen)%nat.
Proof.
  intros Hd. unfold deque_append.
  destruct (Nat.ltb_spec maxlen (length (d ++ [x]))) as [Hlt | Hge]; [| exact Hge].
  rewrite length_app in Hlt. cbn [length] in Hlt.
  destruct d as [| a d]; cbn [app tl length] in *; [lia |].
  rewrite length_app. cbn [length]. lia.
Qed.

Lemma length_deque_append_grows maxlen x d :
  (length (deque_append maxlen x d) <= S (length d))%nat.
Proof.
  unfold deque_append.
  destruct (maxlen <? length (d ++ [x]))%nat.
  - destruct d as [| a d]; cbn [app tl length]; [lia |].
    rewrite length_app. cbn [length]. lia.
  - rewrite length_app. cbn [length]. lia.
Qed.

(** One request in full: the events, and the window and the standing of its
    address afterwards. *)
Lemma analyze_request_window now request uid self :
  let ip := _get_client_ip request in
  let seen := deque_append 100 now (window ip self) in
  let n := length (List.filter (fun t => now - timedelta_minutes 1 <? t) seen) in
  window ip (snd (analyze_request now request uid self)) = seen /\
  rate_flagged (fst (analyze_request now request uid self))
    = (max_requests_per_minute <? Z.of_nat n) /\
  (ip ∈ suspicious_ips (snd (analyze_request now request uid self)) ->
   ip ∈ suspicious_ips self \/ (max_requests_per_minute <? Z.of_nat n) = true).
Proof.
  cbv zeta. unfold analyze_request, window.
  cbn [fst snd request_patterns suspicious_ips].
  rewrite lookup_insert_eq. cbn [default].
  split; [reflexivity |].
  assert (Hm : rate_flagged
                 (_check_malicious_patterns now request uid (_get_client_ip request))
               = false).
  { unfold rate_flagged. apply not_true_is_false. intros H.
    apply existsb_exists in H. destruct H as (e & He & Ht).
    apply RateProps.malicious_events_type in He. now rewrite He in Ht. }
  match goal with |- context [max_requests_per_minute <? ?m] =>
    destruct (max_requests_per_minute <? m) end.
  - split; [| auto].
    unfold rate_flagged in *.
    destruct (decide (_get_client_ip request ∈ blocked_ips self));
      rewrite !existsb_app; cbn; rewrite ?orb_true_r; reflexivity.
  - split; [| auto].
    unfold rate_flagged in *.
    destruct (decide (_get_client_ip request ∈ blocked_ips self));
      rewrite !existsb_app, Hm; reflexivity.
Qed.

Lemma analyze_request_other_window now request uid self ip :
  _get_client_ip request <> ip ->
  window ip (snd (analyze_request now request uid self)) = window ip self /\
  (ip ∈ suspicious_ips (snd (analyze_request now request uid self)) ->
   ip ∈ suspicious_ips self).
Proof.
  intros Hne. unfold analyze_request, window.
  cbn [snd request_patterns suspicious_ips].
  rewrite lookup_insert_ne by exact Hne. split; [reflexivity |].
  match goal with |- context [max_requests_per_minute <? ?m] =>
    destruct (max_requests_per_minute <? m) end; [| auto].
  intros H. apply elem_of_union in H. destruct H as [H | H]; [| exact H].
  apply elem_of_singleton in H. congruence.
Qed.

Lemma analyzed_requests_cons ip c calls :
  analyzed_requests ip (c :: calls)
    = (analyzed_requests ip [c] + analyzed_requests ip calls)%nat.
Proof.
  unfold analyzed_requests. cbn [List.filter].
  destruct c as [now request uid | now j uid]; [| reflexivity].
  destruct (bool_decide (_get_client_ip request = ip)); reflexivity.
Qed.

Lemma after_detector_call_window ip self c n :
  (length (window ip self) <= 100)%nat ->
  (length (window ip self) <= n)%nat ->
  (ip ∈ suspicious_ips self -> (61 <= n)%nat) ->
  (length (window ip (after_detector_call self c)) <= 100)%nat /\
  (length (window ip (after_detector_call self c)) <= n + analyzed_requests ip [c])%nat /\
  (ip ∈ suspicious_ips (after_detector_call self c) ->
   (61 <= n + analyzed_requests ip [c])%nat).
Proof.
  intros Hcap Hlen Hsus.
  destruct c as [now request uid | now j uid];
    cbn [after_detector_call analyzed_requests List.filter length].
  - case_bool_decide as Hip.
    + cbn [length].
      destruct (analyze_request_window now request uid self) as (Hw & _ & Hs).
      rewrite Hip in Hw, Hs. rewrite Hw.
      pose proof (length_deque_append 100 now (window ip self) Hcap) as H1.
      pose proof (length_deque_append_grows 100 now (window ip self)) as H2.
      split; [exact H1 |]. split; [lia |].
      intros H. destruct (Hs H) as [H' | H'].
      * specialize (Hsus H'). lia.
      * apply Z.ltb_lt in H'. unfold max_requests_per_minute in H'.
        pose proof (length_filter_le (fun t => now - timedelta_minutes 1 <? t)
                      (deque_append 100 now (window ip self))) as H3.
        lia.
    + cbn [length].
      destruct (analyze_request_other_window now request uid self ip Hip) as [Hw Hs].
      rewrite Hw. split; [exact Hcap |]. split; [lia |].
      intros H. specialize (Hsus (Hs H)). lia.
  - cbn [length].
    assert (Hw : window ip (snd (record_failed_login now j uid self)) = window ip self).
    { unfold record_failed_login, window.
      match goal with |- context [max_failed_attempts <=? ?m] =>
        destruct (max_failed_attempts <=? m) end; reflexivity. }
    assert (Hs : suspicious_ips (snd (record_failed_login now j uid self))
                 = suspicious_ips self).
    { unfold record_failed_login.
      match goal with |- context [max_failed_attempts <=? ?m] =>
        destruct (max_failed_attempts <=? m) end; reflexivity. }
    rewrite Hw, Hs. split; [exact Hcap |]. split; [lia |].
    intros H. specialize (Hsus H). lia.
Qed.

Lemma after_detector_calls_window ip calls :
  forall self n,
    (length (window ip self) <= 100)%nat ->
    (length (window ip self) <= n)%nat ->
    (ip ∈ suspicious_ips self -> (61 <= n)%nat) ->
    (length (window ip (after_detector_calls calls self)) <= 100)%nat /\
    (ip ∈ suspicious_ips (after_detector_calls calls self) ->
     (61 <= n + analyzed_requests ip calls)%nat).
Proof.
  unfold after_detector_calls.
  induction calls as [| c calls IH]; intros self n Hcap Hlen Hsus; cbn [fold_left].
  - split; [exact Hcap |]. intros H. specialize (Hsus H). cbn. lia.
  - destruct (after_detector_call_window ip self c n Hcap Hlen Hsus) as (Hc & Hl & Hs).
    destruct (IH _ _ Hc Hl Hs) as [Hc' Hs'].
    split; [exact Hc' |].
    intros H. rewrite analyzed_requests_cons. specialize (Hs' H). lia.
Qed.

Lemma window_new_detector ip : window ip new_detector = [].
Proof. unfold window, new_detector. cbn [request_patterns]. now rewrite lookup_empty. Qed.

(** The memory kept for an address is bounded: whatever calls are made on a
    detector that started new, the request window of an address never holds
    more than 100 clock readings. *)
Theorem request_window_holds_at_most_100
    (ip : string) (calls : list detector_call) :
  (length (window ip (after_detector_calls calls new_detector)) <= 100)%nat.
Proof.
  apply (after_detector_calls_window ip calls new_detector 0%nat).
  - rewrite window_new_detector. cbn [length]. lia.
  - rewrite window_new_detector. cbn [length]. lia.
  - intros H. unfold new_detector in H. cbn [suspicious_ips] in H.
    now apply not_elem_of_empty in H.
Qed.

(** No address is marked suspicious lightly: an address in the suspicious
    set of a detector that started new has had at least 61 requests
    analysed.  Malicious patterns in a request and failed logins mark
    nobody. *)
Theorem suspicious_only_after_sixty_one_requests
    (ip : string) (calls : list detector_call) :
  ip ∈ suspicious_ips (after_detector_calls calls new_detector) ->
  (61 <= analyzed_requests ip calls)%nat.
Proof.
  intros H.
  apply (after_detector_calls_window ip calls new_detector 0%nat); [| | | exact H].
  - rewrite window_new_detector. cbn [length]. lia.
  - rewrite window_new_detector. cbn [length]. lia.
  - intros Hin. unfold new_detector in Hin. cbn [suspicious_ips] in Hin.
    now apply not_elem_of_empty in Hin.
Qed.

(** An instance: sixty-one requests of 9.9.9.9 at one clock reading. *)
Lemma suspicious_only_after_sixty_one_requests_witness :
  "9.9.9.9" ∈ suspicious_ips (after_detector_calls Sample.sixty_one_pings new_detector) /\
  (61 <= analyzed_requests "9.9.9.9" Sample.sixty_one_pings)%nat.
Proof.
  assert (H : "9.9.9.9" ∈ suspicious_ips
                (after_detector_calls Sample.sixty_one_pings new_detector)).
  { apply (bool_decide_unpack _). vm_compute. exact I. }
  split; [exact H |].
  exact (suspicious_only_after_sixty_one_requests "9.9.9.9" _ H).
Defined.

(** *** The rate check and the full history *)

Lemma skipn_S_tl {A} (k : nat) (l : list A) : skipn (S k) l = tl (skipn k l).
Proof.
  revert l. induction k as [| k IH]; intros l.
  - destruct l; reflexivity.
  - destruct l as [| a l]; [reflexivity |].
    change (skipn (S (S k)) (a :: l)) with (skipn (S k) l).
    change (skipn (S k) (a :: l)) with (skipn k l).
    apply IH.
Qed.

(** A deque of at most [n] entries holds the last [n] of all that were
    appended. *)
Lemma deque_append_last_n (n : nat) (x : Z) (history : list Z) :
  (0 < n)%nat ->
  deque_append n x (last_n n history) = last_n n (history ++ [x]).
Proof.
  intros Hn. unfold deque_append, last_n.
  rewrite !length_app, length_skipn. cbn [length].
  destruct (Nat.le_gt_cases n (length history)) as [Hge | Hlt].
  - replace (n <? length history - (length history - n) + 1)%nat with true
      by (symmetry; apply Nat.ltb_lt; lia).
    replace (length history + 1 - n)%nat with (S (length history - n)) by lia.
    rewrite skipn_S_tl, skipn_app.
    replace (length history - n - length history)%nat with 0%nat by lia.
    reflexivity.
  - replace (n <? length history - (length history - n) + 1)%nat with false
      by (symmetry; apply Nat.ltb_ge; lia).
    replace (length history - n)%nat with 0%nat by lia.
    replace (length history + 1 - n)%nat with 0%nat by lia.
    reflexivity.
Qed.

Lemma nondecreasing_app_l a b : nondecreasing (a ++ b) -> nondecreasing a.
Proof.
  induction a as [| t a IH]; cbn [app nondecreasing]; [auto |].
  intros [Hall Hnd]. apply Forall_app in Hall. split; [apply Hall | auto].
Qed.

(** In a list in clock order the readings after a cut are the end of the
    list. *)
Lemma sorted_cut (cut : Z) (l : list Z) :
  nondecreasing l ->
  exists a b,
    l = a ++ b /\
    Forall (fun t => (cut <? t) = false) a /\
    Forall (fun t => (cut <? t) = true) b.
Proof.
  induction l as [| t l IH]; intros Hnd.
  - exists [], []. auto.
  - destruct Hnd as [Hall Hnd].
    destruct (cut <? t) eqn:E.
    + exists [], (t :: l). split; [reflexivity |]. split; [constructor |].
      constructor; [exact E |].
      apply List.Forall_forall. intros x Hx.
      rewrite List.Forall_forall in Hall. specialize (Hall x Hx).
      apply Z.ltb_lt. apply Z.ltb_lt in E. lia.
    + destruct (IH Hnd) as (a & b & -> & Ha & Hb).
      exists (t :: a), b. split; [reflexivity |]. split; [| exact Hb].
      constructor; assumption.
Qed.

Lemma filter_none {A} (f : A -> bool) (l : list A) :
  Forall (fun x => f x = false) l -> List.filter f l = [].
Proof.
  induction 1 as [| x l Hx _ IH]; [reflexivity |].
  cbn [List.filter]. now rewrite Hx.
Qed.

Lemma filter_all {A} (f : A -> bool) (l : list A) :
  Forall (fun x => f x = true) l -> List.filter f l = l.
Proof.
  induction 1 as [| x l Hx _ IH]; [reflexivity |].
  cbn [List.filter]. rewrite Hx. now f_equal.
Qed.

Lemma Forall_skipn {A} (P : A -> Prop) (k : nat) (l : list A) :
  Forall P l -> Forall P (skipn k l).
Proof.
  revert l. induction k as [| k IH]; intros l Hl; [exact Hl |].
  destruct Hl as [| x l _ Hl]; [constructor |].
  change (skipn (S k) (x :: l)) with (skipn k l). now apply IH.
Qed.

(** The cap of the window does not change the verdict of the rate check. *)
Lemma rate_verdict_last_n (cut : Z) (l : list Z) :
  nondecreasing l ->
  (60 <? Z.of_nat (length (List.filter (fun t => cut <? t) (last_n 100 l))))
  = (60 <? Z.of_nat (length (List.filter (fun t => cut <? t) l))).
Proof.
  intros Hnd.
  destruct (sorted_cut cut l Hnd) as (a & b & -> & Ha & Hb).
  unfold last_n. rewrite skipn_app, !List.filter_app.
  set (f := fun t => cut <? t).
  rewrite (filter_none f a Ha), (filter_all f b Hb).
  rewrite (filter_none f _ (Forall_skipn _ _ _ Ha)).
  rewrite (filter_all f _ (Forall_skipn _ _ _ Hb)).
  cbn [app]. rewrite length_skipn, length_app.
  destruct (Nat.le_gt_cases (length a + length b - 100) (length a)) as [Hk | Hk].
  - replace (length b - (length a + length b - 100 - length a))%nat
      with (length b) by lia.
    reflexivity.
  - replace (60 <? Z.of_nat (length b - (length a + length b - 100 - length a)))
      with true by (symmetry; apply Z.ltb_lt; lia).
    symmetry. apply Z.ltb_lt. lia.
Qed.

Lemma rate_verdicts_from_history ip uid arrivals :
  forall (history : list Z) (self : ThreatDetector),
    window ip self = last_n 100 history ->
    from_address ip arrivals ->
    nondecreasing (history ++ map fst arrivals) ->
    map rate_flagged (fst (analyze_requests arrivals uid self))
    = rate_verdicts history (map fst arrivals).
Proof.
  induction arrivals as [| [now request] rest IH]; intros history self Hw Hfrom Hnd.
  - reflexivity.
  - apply List.Forall_cons_iff in Hfrom. destruct Hfrom as [Hip Hfrom]. cbn [snd] in Hip.
    rewrite RateProps.analyze_requests_cons. cbn [fst snd map rate_verdicts].
    destruct (analyze_request_window now request uid self) as (Hw' & Hr & _).
    rewrite Hip, Hw in Hw', Hr.
    rewrite deque_append_last_n in Hw', Hr by lia.
    cbn [map fst] in Hnd.
    change (history ++ now :: map fst rest)
      with (history ++ [now] ++ map fst rest) in Hnd.
    rewrite app_assoc in Hnd.
    f_equal.
    + rewrite Hr. unfold max_requests_per_minute, recent_requests.
      apply rate_verdict_last_n. now apply nondecreasing_app_l in Hnd.
    + apply IH; assumption.
Qed.

(** The window of an address holds at most 100 readings, and yet, as long
    as the clock does not run backwards, the rate check decides as if it
    held them all: starting with an empty window, a request of the address
    raises the rate event exactly when more than 60 of its requests so far,
    itself included, are less than a minute old. *)
Theorem rate_check_agrees_with_full_history
    (ip : string) (uid : option string) (self : ThreatDetector)
    (arrivals : list (Z * Http.Request)) :
  window ip self = [] ->
  from_address ip arrivals ->
  nondecreasing (map fst arrivals) ->
  map rate_flagged (fst (analyze_requests arrivals uid self))
  = rate_verdicts [] (map fst arrivals).
Proof.
  intros Hw Hfrom Hnd.
  apply (rate_verdicts_from_history ip uid arrivals [] self); auto.
Qed.

Lemma nondecreasing_repeat (t : Z) (n : nat) : nondecreasing (repeat t n).
Proof.
  induction n as [| n IH]; cbn [repeat nondecreasing]; [exact I |].
  split; [| exact IH].
  apply List.Forall_forall. intros x Hx. apply repeat_spec in Hx. subst x. lia.
Qed.

(** An instance: sixty-one requests of 9.9.9.9 at one clock reading; the
    last one raises the rate event. *)
Lemma rate_check_agrees_with_full_history_witness :
  from_address "9.9.9.9" (repeat (0, Sample.ping) 61) /\
  nondecreasing (map fst (repeat (0, Sample.ping) 61)) /\
  map rate_flagged (fst (analyze_requests (repeat (0, Sample.ping) 61) None new_detector))
  = repeat false 60 ++ [true].
Proof.
  assert (Hfrom : from_address "9.9.9.9" (repeat (0, Sample.ping) 61)).
  { apply List.Forall_forall. intros a Ha. apply repeat_spec in Ha. now subst a. }
  assert (Hnd : nondecreasing (map fst (repeat (0, Sample.ping) 61))).
  { rewrite map_repeat. apply nondecreasing_repeat. }
  split; [exact Hfrom |]. split; [exact Hnd |].
  exact (rate_check_agrees_with_full_history "9.9.9.9" None new_detector
           (repeat (0, Sample.ping) 61) (window_new_detector "9.9.9.9") Hfrom Hnd).
Defined.

End HistoryProps.

(** ** Malicious patterns *)

Module PatternProps.

Import Monitoring.

(** A match at the start of a later part of the text is found by
    [re.search]. *)
Lemma re_search_after r before s :
  re_match r s = true -> re_search r (before +:+ s) = true.
Proof.
  intros H. induction before as [| c before IH].
  - change ("" +:+ s) with s. destruct s; cbn [re_search]; rewrite H; reflexivity.
  - change (String c before +:+ s) with (String c (before +:+ s)).
    cbn [re_search]. rewrite IH. apply orb_true_r.
Qed.

(** A text that begins with [w] matches when what is left of the pattern
    after the characters of [w] matches the empty text. *)
Lemma re_match_prefix w :
  forall r s,
    nullable (fold_left (fun r c => deriv c r) (list_ascii_of_string w) r) = true ->
    re_match r (w +:+ s) = true.
Proof.
  induction w as [| c w IH]; intros r s H.
  - change ("" +:+ s) with s. cbn [list_ascii_of_string fold_left] in H.
    destruct s; cbn [re_match]; rewrite H; reflexivity.
  - change (String c w +:+ s) with (String c (w +:+ s)).
    cbn [re_match]. rewrite (IH (deriv c r) s H). apply orb_true_r.
Qed.

(** Two steps up the directory tree, anywhere in the text. *)
Lemma traversal_found before after :
  re_search (two_or_more (lit_i "../")) (before +:+ "../../" +:+ after) = true.
Proof.
  apply re_search_after. apply re_match_prefix. vm_compute. reflexivity.
Qed.

(** Path traversal is reported wherever it stands: when the path and the
    query of a request, put together, hold [../../] at any place, the
    events of the pattern check start with the one of the first pattern,
    a [SUSPICIOUS_ACTIVITY] of severity [HIGH] that names the address and
    the pattern. *)
Theorem path_traversal_is_reported
    (now : Z) (request : Http.Request) (uid : option string) (ip : string)
    (before after : string) :
  Http.url_path request +:+ Http.url_query request = before +:+ "../../" +:+ after ->
  exists e rest,
    _check_malicious_patterns now request uid ip = e :: rest /\
    event_type e = SUSPICIOUS_ACTIVITY /\
    severity e = HIGH /\
    ip_address e = Some ip /\
    user_id e = uid /\
    description e = Some "Malicious pattern detected: (\.\./){2,}".
Proof.
  intros Htext.
  unfold _check_malicious_patterns, suspicious_patterns.
  cbn [flat_map compiled source]. rewrite Htext, traversal_found.
  eexists. eexists. split; [reflexivity |].
  cbn [event_type severity ip_address user_id description]. auto 10.
Qed.

(** An instance: a request for [/static/../../etc/passwd]. *)
Lemma path_traversal_is_reported_witness :
  exists e rest,
    _check_malicious_patterns 0 Sample.traversal_request None "6.6.6.6" = e :: rest /\
    event_type e = SUSPICIOUS_ACTIVITY /\
    severity e = HIGH /\
    ip_address e = Some "6.6.6.6" /\
    user_id e = None /\
    description e = Some "Malicious pattern detected: (\.\./){2,}".
Proof.
  apply (path_traversal_is_reported 0 Sample.traversal_request None "6.6.6.6"
           "/static/" "etc/passwd").
  reflexivity.
Defined.

End PatternProps.

(** ** The session: login, then the token *)

Module SessionProps.

Import Auth Spec SessionSpec.

(** The access token of a login is good for the session.  When [login]
    answers with tokens, the email named a user of the table who is active
    and whose password the hashing context verified, and the commit went
    through; and for the next 30 minutes (in whole seconds) [get_me] answers
    the access token with the row of that user's id, as long as the row is
    active, and with 400 when it is not. *)
Theorem login_tokens_open_the_session
    (environ : gmap string string) (ctx : CryptContext) (now : Z)
    (db : list Database.User) (commit rollback : outcome unit) (email password : string)
    (request : Http.Request) (st st' : state) (tokens : Main.Schemas.Token) :
  Endpoints.login environ ctx now db commit rollback email password request st
    = (Returned tokens, st') ->
  exists user,
    Database.query_first (fun x => String.eqb (Database.email x) email) db = Some user /\
    Database.is_active user = true /\
    verify ctx password (Database.hashed_password user) = Returned true /\
    commit = Returned tt /\
    Main.Schemas.token_type tokens = "bearer" /\
    forall now' db' row st2,
      Database.query_first (id_is (Jose.CStr (Database.id user))) db' = Some row ->
      Jose.seconds now' <= Jose.seconds (now + timedelta_minutes 30) ->
      fst (Endpoints.get_me environ now' (Main.Schemas.access_token tokens) db' st2)
      = if Database.is_active row then Returned row
        else Raised (HTTPException 400 "Inactive user").
Proof.
  unfold Endpoints.login. unfold bind at 1.
  destruct (authenticate_user ctx now db email password (Some request) st)
    as [[[u |] | e] s1] eqn:Hauth; try (intros H; discriminate H).
  apply AuthFlowProps.authenticate_user_returned in Hauth.
  destruct Hauth as (user & Hq & Ha & Hv & _ & Hu & _).
  assert (Hid : Database.id u = Database.id user) by (now rewrite Hu).
  unfold bind, try_except, Exception, raise, ret.
  destruct commit as [[] | e];
    [| destruct rollback as [[] | e']; intros H; discriminate H].
  intros H. injection H as <- <-.
  exists user. repeat (split; [first [reflexivity | assumption] |]).
  intros now' db' row st2 Hrow Hclock.
  unfold Main.issue_tokens. cbn [Main.Schemas.access_token].
  rewrite Hid.
  destruct (HashTokenProps.access_token_presented environ now now'
              (timedelta_minutes ACCESS_TOKEN_EXPIRE_MINUTES)
              (Database.id user) db' row st2 ltac:(discriminate) Hrow) as [Hok _].
  unfold Endpoints.get_me, bind. rewrite (Hok Hclock).
  unfold get_current_active_user.
  destruct (Database.is_active row); reflexivity.
Qed.

(** An instance: [u1] logs in, and asks for [/auth/me] a minute later. *)
Lemma login_tokens_open_the_session_witness :
  fst (Endpoints.login ∅ Sample.sample_context 0 Sample.users (Returned tt) (Returned tt)
         "u1@example.com" "P@ssw0rd1" Sample.login_request initial)
    = Returned (Main.issue_tokens ∅ 0 Sample.u1) /\
  fst (Endpoints.get_me ∅ Sample.minute
         (Main.Schemas.access_token (Main.issue_tokens ∅ 0 Sample.u1))
         Sample.users initial)
    = Returned Sample.u1.
Proof.
  split; [vm_compute; reflexivity |].
  assert (H : Endpoints.login ∅ Sample.sample_context 0 Sample.users
                (Returned tt) (Returned tt)
                "u1@example.com" "P@ssw0rd1" Sample.login_request initial
              = (Returned (Main.issue_tokens ∅ 0 Sample.u1),
                 snd (Endpoints.login ∅ Sample.sample_context 0 Sample.users
                        (Returned tt) (Returned tt)
                        "u1@example.com" "P@ssw0rd1" Sample.login_request initial)))
    by (vm_compute; reflexivity).
  destruct (login_tokens_open_the_session _ _ _ _ _ _ _ _ _ _ _ _ H)
    as (user & Hq & _ & _ & _ & _ & Hme).
  injection Hq as <-.
  exact (Hme Sample.minute Sample.users Sample.u1 initial eq_refl ltac:(discriminate)).
Defined.



End SessionProps.

(** ** The model endpoints *)

Module ModelProps.

Import Models ModelSpec.

Lemma is_model_owned model_id current_user m :
  is_model model_id current_user m = true ->
  id m = model_id /\ user_id m = Database.id current_user.
Proof.
  unfold is_model, owned_by. intros H. apply andb_prop in H. destruct H as [H1 H2].
  apply String.eqb_eq in H1, H2. auto.
Qed.

Lemma filter_replace_first (q p : SavedModel -> bool) x table :
  (forall m, p m = true -> q m = false) ->
  q x = false ->
  List.filter q (replace_first p x table) = List.filter q table.
Proof.
  intros Hpq Hx. induction table as [| m rest IH]; [reflexivity |].
  cbn [replace_first]. destruct (p m) eqn:E; cbn [List.filter].
  - now rewrite Hx, (Hpq m E).
  - now rewrite IH.
Qed.

Lemma filter_remove_first (q p : SavedModel -> bool) table :
  (forall m, p m = true -> q m = false) ->
  List.filter q (remove_first p table) = List.filter q table.
Proof.
  intros Hpq. induction table as [| m rest IH]; [reflexivity |].
  cbn [remove_first]. destruct (p m) eqn:E; cbn [List.filter].
  - now rewrite (Hpq m E).
  - now rewrite IH.
Qed.

Lemma other_not_owned other current_user uid :
  other <> Database.id current_user ->
  uid = Database.id current_user ->
  String.eqb uid other = false.
Proof. intros Hne ->. apply String.eqb_neq. congruence. Qed.

Lemma after_model_call_other current_user c table other :
  other <> Database.id current_user ->
  models_of other (after_model_call current_user c table) = models_of other table.
Proof.
  intros Hne. unfold models_of.
  assert (Hpq : forall model_id m,
            is_model model_id current_user m = true ->
            String.eqb (user_id m) other = false).
  { intros model_id m Hm. apply is_model_owned in Hm.
    now apply (other_not_owned other current_user). }
  destruct c as [now new_id commit data | skip limit | model_id
                 | now commit model_id data | commit model_id];
    cbn [after_model_call].
  - unfold create_model, committing.
    destruct commit as [u | e]; cbn [snd]; [| reflexivity].
    rewrite List.filter_app. cbn [List.filter user_id].
    rewrite (other_not_owned other current_user _ Hne eq_refl). apply app_nil_r.
  - reflexivity.
  - unfold get_model. destruct (List.find _ table); reflexivity.
  - unfold update_model.
    destruct (List.find _ table) as [model |] eqn:Hfind; [| reflexivity].
    unfold committing. destruct commit as [u | e]; cbn [snd]; [| reflexivity].
    apply find_some in Hfind. destruct Hfind as [_ Hm].
    apply filter_replace_first; [apply Hpq |].
    cbn [user_id]. exact (Hpq model_id model Hm).
  - unfold delete_model.
    destruct (List.find _ table) as [model |]; [| reflexivity].
    unfold committing. destruct commit as [u | e]; cbn [snd]; [| reflexivity].
    apply filter_remove_first. apply Hpq.
Qed.

(** A user cannot touch the models of another: whatever calls of the five
    model endpoints a user makes, with whatever ids and data, the models of
    every other user are afterwards what they were, in the same order. *)
Theorem other_users_models_are_untouched
    (current_user : Database.User) (calls : list model_call)
    (table : list SavedModel) (other : string) :
  other <> Database.id current_user ->
  models_of other (after_model_calls current_user calls table) = models_of other table.
Proof.
  intros Hne. unfold after_model_calls. revert table.
  induction calls as [| c calls IH]; intros table; cbn [fold_left]; [reflexivity |].
  rewrite IH. now apply after_model_call_other.
Qed.

(** An instance: [u1] updates and deletes under the id of a model of
    another user; that model stays. *)
Lemma other_users_models_are_untouched_witness :
  models_of "u2"
    (after_model_calls Sample.u1
       [Update 5 (Returned tt) "m2" Sample.renaming; Delete (Returned tt) "m2"]
       Sample.models)
  = models_of "u2" Sample.models.
Proof.
  apply (other_users_models_are_untouched Sample.u1
           [Update 5 (Returned tt) "m2" Sample.renaming; Delete (Returned tt) "m2"]
           Sample.models "u2").
  discriminate.
Defined.

Lemma in_firstn_in {A} (n : nat) (l : list A) x : In x (firstn n l) -> In x l.
Proof.
  revert l. induction n as [| n IH]; intros l; [intros [] |].
  destruct l as [| a l]; [intros [] |].
  cbn [firstn]. intros [-> | H]; [now left | right; now apply IH].
Qed.

Lemma in_skipn_in {A} (n : nat) (l : list A) x : In x (skipn n l) -> In x l.
Proof.
  revert l. induction n as [| n IH]; intros l; [auto |].
  destruct l as [| a l]; [intros [] |].
  change (skipn (S n) (a :: l)) with (skipn n l). intros H. right. now apply IH.
Qed.

(** A page of [list_models]: never more than 100 models and never more than
    asked for, each one a row of the caller, taken in the order of the
    table after the first [skip] of the caller's rows; [total] counts all
    the caller's rows, whatever the page. *)
Theorem list_models_pages
    (skip limit : nat) (current_user : Database.User) (table : list SavedModel) :
  exists models total,
    list_models skip limit current_user table = (Returned (models, total), table) /\
    total = length (models_of (Database.id current_user) table) /\
    length models = Nat.min (Nat.min limit 100) (total - skip) /\
    (length models <= 100)%nat /\
    Forall (fun m => user_id m = Database.id current_user /\ In m table) models.
Proof.
  unfold list_models. eexists. eexists. split; [reflexivity |].
  split; [reflexivity |].
  split; [now rewrite length_firstn, length_skipn |].
  split; [rewrite length_firstn; lia |].
  apply List.Forall_forall. intros m Hm.
  apply in_firstn_in in Hm. apply in_skipn_in in Hm.
  apply filter_In in Hm. destruct Hm as [Hin Hown].
  apply String.eqb_eq in Hown. auto.
Qed.

Lemma find_app_last (p : SavedModel -> bool) table x :
  Forall (fun m => p m = false) table ->
  p x = true ->
  List.find p (table ++ [x]) = Some x.
Proof.
  intros Hall Hx. induction Hall as [| m rest Hm _ IH]; cbn [app List.find].
  - now rewrite Hx.
  - now rewrite Hm.
Qed.

(** What is created can be read back: after [create_model] with an id that
    is not in use and a commit that goes through, [get_model] for that id
    answers the caller with the model, which holds the data given and
    belongs to the caller. *)
Theorem created_model_is_read_back
    (now : Z) (new_id : string) (data : ModelCreate.t)
    (current_user : Database.User) (table : list SavedModel) :
  fresh_id new_id table ->
  exists model,
    create_model now new_id (Returned tt) data current_user table
      = (Returned model, table ++ [model]) /\
    get_model new_id current_user (table ++ [model]) = (Returned model, table ++ [model]) /\
    id model = new_id /\
    user_id model = Database.id current_user /\
    name model = ModelCreate.name data /\
    description model = ModelCreate.description data /\
    model_data model = ModelCreate.model_data data.
Proof.
  intros Hfresh. unfold create_model, committing.
  eexists. split; [reflexivity |].
  split; [| cbn; auto 10].
  unfold get_model. rewrite find_app_last; [reflexivity | |].
  - unfold fresh_id in Hfresh. eapply List.Forall_impl; [| exact Hfresh].
    intros m Hm. unfold is_model.
    apply String.eqb_neq in Hm. now rewrite Hm.
  - unfold is_model, owned_by. cbn [id user_id]. now rewrite !String.eqb_refl.
Qed.

(** An instance: [u1] creates a model under an id not in use. *)
Lemma created_model_is_read_back_witness :
  fresh_id "m9" Sample.models /\
  fst (get_model "m9" Sample.u1
         (snd (create_model 7 "m9" (Returned tt) Sample.new_model Sample.u1 Sample.models)))
  = fst (create_model 7 "m9" (Returned tt) Sample.new_model Sample.u1 Sample.models).
Proof.
  assert (H : fresh_id "m9" Sample.models) by (repeat constructor; discriminate).
  split; [exact H |].
  destruct (created_model_is_read_back 7 "m9" Sample.new_model Sample.u1 Sample.models H)
    as (model & Hc & Hg & _).
  rewrite Hc. cbn [fst snd]. now rewrite Hg.
Defined.

Lemma find_remove_first (p : SavedModel -> bool) table model_id :
  (forall m, p m = true -> id m = model_id) ->
  unique_ids table ->
  List.find p (remove_first p table) = None.
Proof.
  intros Hp. unfold unique_ids.
  induction table as [| m rest IH]; intros Hnd; [reflexivity |].
  cbn [map] in Hnd. apply List.NoDup_cons_iff in Hnd. destruct Hnd as [Hnotin Hnd].
  cbn [remove_first]. destruct (p m) eqn:E.
  - destruct (List.find p rest) as [m' |] eqn:F; [| reflexivity].
    apply find_some in F. destruct F as [Hin Hm'].
    exfalso. apply Hnotin.
    rewrite (Hp m E), <- (Hp m' Hm'). now apply in_map.
  - cbn [List.find]. rewrite E. now apply IH.
Qed.

Lemma length_remove_first (p : SavedModel -> bool) table model :
  List.find p table = Some model ->
  S (length (remove_first p table)) = length table.
Proof.
  induction table as [| m rest IH]; cbn [List.find remove_first]; [discriminate |].
  destruct (p m); cbn [length]; [reflexivity |].
  intros H. now rewrite (IH H).
Qed.

(** What is deleted is gone: when no two rows share an id and
    [delete_model] answers [Model deleted successfully], the table has one
    row less and [get_model] for that id answers the caller with 404. *)
Theorem deleted_model_is_gone
    (commit : outcome unit) (model_id : string) (current_user : Database.User)
    (table table' : list SavedModel) (message : string) :
  unique_ids table ->
  delete_model commit model_id current_user table = (Returned message, table') ->
  message = "Model deleted successfully" /\
  S (length table') = length table /\
  get_model model_id current_user table' = (Raised not_found, table').
Proof.
  intros Hu. unfold delete_model.
  destruct (List.find _ table) as [model |] eqn:Hfind; [| discriminate].
  unfold committing. destruct commit as [u | e]; [| discriminate].
  intros H. injection H as <- <-.
  split; [reflexivity |].
  split; [now apply (length_remove_first _ _ model) |].
  unfold get_model.
  rewrite (find_remove_first _ table model_id); [reflexivity | | exact Hu].
  intros m Hm. now apply is_model_owned in Hm.
Qed.

(** An instance: [u1] deletes the model [m1]. *)
Lemma deleted_model_is_gone_witness :
  unique_ids Sample.models /\
  fst (delete_model (Returned tt) "m1" Sample.u1 Sample.models)
    = Returned "Model deleted successfully" /\
  fst (get_model "m1" Sample.u1
         (snd (delete_model (Returned tt) "m1" Sample.u1 Sample.models)))
    = Raised not_found.
Proof.
  assert (Hu : unique_ids Sample.models).
  { unfold unique_ids.
    apply List.NoDup_cons; [| apply List.NoDup_cons; [| apply List.NoDup_nil]].
    - intros [H | []]. discriminate H.
    - intros []. }
  assert (Hd : delete_model (Returned tt) "m1" Sample.u1 Sample.models
               = (Returned "Model deleted successfully",
                  snd (delete_model (Returned tt) "m1" Sample.u1 Sample.models)))
    by (vm_compute; reflexivity).
  split; [exact Hu |]. split; [now rewrite Hd |].
  destruct (deleted_model_is_gone _ _ _ _ _ _ Hu Hd) as (_ & _ & Hg).
  now rewrite Hg.
Defined.

End ModelProps.
